(** * pydicom.values: conversion of raw DICOM element payloads

    A shallow embedding of [pydicom/values.py] and the properties of its
    converters and of the [convert_value] retry engine.

    Conventions of the embedding.
    - The interpreter is Python 3 ([in_py2] is false): payloads are [bytes],
      decoded text is [str], a sequence of code points.
    - An exception is a value of [exn]; a computation yields the log records
      it emitted together with its [outcome].  Only subclasses of
      [Exception] are modelled, so [except Exception] catches every [exn].
    - [struct.unpack], [struct.calcsize], [re.match] and [re.sub] are
      standard-library functions; they are embedded from their documented
      behaviour on the formats and patterns this module passes to them.
      A [float] is the IEEE-754 datum it holds.
    - Functions of pydicom that live in other modules ([MultiString], the
      [DA]/[DT]/[TM]/[PersonName] constructors, [read_sequence]), the codecs
      behind [bytes.decode] and [numpy.fromstring] are fields of an
      environment record and are left arbitrary. *)

From Stdlib Require Import ZArith NArith List Bool Lia.
From Stdlib.Strings Require Import String Ascii Byte.
From Stdlib Require SpecFloat.
Import ListNotations.
Local Open Scope string_scope.
Local Open Scope list_scope.
Local Open Scope nat_scope.
#[local] Abbreviation length := List.length.

(* ------------------------------------------------------------------ *)
(** ** Python data *)

Definition bytes := list byte.

(** A Python 3 [str]: its code points. *)
Definition pystr := list N.

Definition str_of (s : string) : pystr :=
  map N_of_ascii (list_ascii_of_string s).

(** The tag-pair value.
    Modelled from the spec: [pydicom.tag.TupleTag] and [pydicom.tag.Tag] are
    not in this module; a tag is the logical pair of its two 16-bit codes,
    [TupleTag] builds it from the unpacked pair and [Tag] applied to a tag
    returns it. *)
Record BaseTag := mkTag { group : Z; element : Z }.

Definition TupleTag (p : Z * Z) : BaseTag := mkTag (fst p) (snd p).
Definition Tag (t : BaseTag) : BaseTag := t.

(** A Python [float]: the IEEE-754 datum it holds, a signed zero, a
    signed infinity, a NaN, or [mantissa * 2 ^ exponent] with an odd
    mantissa.  The payload of a NaN is not part of the datum. *)
Definition pyfloat := SpecFloat.spec_float.

(** What [struct.unpack] produces for one format character. *)
Inductive number :=
| PyInt (z : Z)
| PyFloat (f : pyfloat).

Inductive exn :=
| NotImplementedError (message : pystr)
| ValueError (message : pystr)
| UnicodeDecodeError          (* a subclass of ValueError *)
| LookupError
| IndexError
| TypeError
| struct_error
| OtherError (name : string).  (* any further class outside ValueError *)

(** [except ValueError] *)
Definition isinstance_ValueError (e : exn) : bool :=
  match e with
  | ValueError _ | UnicodeDecodeError => true
  | _ => false
  end.

(** [except TypeError] *)
Definition isinstance_TypeError (e : exn) : bool :=
  match e with
  | TypeError => true
  | _ => false
  end.

(** Records written to [pydicom.config.logger]. *)
Inductive log_record :=
| warn_AT_length (length : nat)
| warning_number_size
| warn_DT_length (length : nat)
| warn_TM_length (length : nat)
| debug_unable_to_translate (tag : BaseTag) (VR : string)
| debug_converted (tag : BaseTag) (vr : string)
| debug_could_not_convert (tag : BaseTag).

(** [Diverge] is the result of a call whose recursion was cut off; no
    handler catches it. *)
Inductive outcome (A : Type) :=
| Return (a : A)
| Raise (e : exn)
| Diverge.
Arguments Return {A} a.
Arguments Raise {A} e.
Arguments Diverge {A}.

Definition M (A : Type) : Type := (list log_record * outcome A)%type.

Definition ret {A} (a : A) : M A := ([], Return a).
Definition raise {A} (e : exn) : M A := ([], Raise e).
Definition log (r : log_record) : M unit := ([r], Return tt).

Definition bind {A B} (m : M A) (f : A -> M B) : M B :=
  match m with
  | (l, Return a) => let (l', o) := f a in (l ++ l', o)
  | (l, Raise e) => (l, Raise e)
  | (l, Diverge) => (l, Diverge)
  end.

Notation "x <- m ;; k" := (bind m (fun x => k))
  (at level 61, m at next level, right associativity).
Notation "m ;;; k" := (bind m (fun _ => k))
  (at level 61, right associativity).

(** [try: m  except <catches> as e: handler e] *)
Definition try_except {A} (m : M A) (catches : exn -> bool)
           (handler : exn -> M A) : M A :=
  match m with
  | (l, Raise e) =>
      if catches e then let (l', o) := handler e in (l ++ l', o)
      else (l, Raise e)
  | _ => m
  end.

(** A list comprehension [[f x for x in xs]]: elements are built left to
    right and the first exception ends the construction. *)
Fixpoint mapM {A B} (f : A -> M B) (xs : list A) : M (list B) :=
  match xs with
  | [] => ret []
  | x :: r => y <- f x ;; ys <- mapM f r ;; ret (y :: ys)
  end.

Definition value_of {A} (m : M A) : outcome A := snd m.
Definition log_of {A} (m : M A) : list log_record := fst m.

(* ------------------------------------------------------------------ *)
(** ** [struct] *)

Inductive struct_code := code_H | code_h | code_L | code_l | code_f | code_d.

(** [calcsize("=" + struct_format)] *)
Definition calcsize (c : struct_code) : nat :=
  match c with
  | code_H | code_h => 2
  | code_L | code_l | code_f => 4
  | code_d => 8
  end.

Definition byte_val (b : byte) : Z := Z.of_N (Byte.to_N b).

(** Least significant byte first. *)
Fixpoint le_uint (bs : bytes) : Z :=
  match bs with
  | [] => 0%Z
  | b :: r => (byte_val b + 256 * le_uint r)%Z
  end.

Definition uint_of (is_little_endian : bool) (bs : bytes) : Z :=
  if is_little_endian then le_uint bs else le_uint (rev bs).

Definition to_signed (bits : Z) (u : Z) : Z :=
  if (u <? 2 ^ (bits - 1))%Z then u else (u - 2 ^ bits)%Z.

(** [m * 2 ^ e] with the factors of two of [m] moved into the exponent. *)
Fixpoint odd_mantissa (m : positive) (e : Z) : positive * Z :=
  match m with
  | xO m' => odd_mantissa m' (e + 1)
  | _ => (m, e)
  end.

Definition finite_float (negative : bool) (m : Z) (e : Z) : pyfloat :=
  match m with
  | Zpos p => let (p', e') := odd_mantissa p e in
              SpecFloat.S754_finite negative p' e'
  | _ => SpecFloat.S754_zero negative
  end.

(** The datum of an IEEE-754 interchange pattern with [mantissa_bits]
    stored mantissa bits and [exponent_bits] exponent bits: binary32 is
    (23, 8), binary64 is (52, 11).  [struct.unpack] widens a binary32 to
    the [float] of the same value. *)
Definition ieee_value (mantissa_bits exponent_bits : Z) (bits : Z)
  : pyfloat :=
  let negative := Z.testbit bits (mantissa_bits + exponent_bits) in
  let e := Z.land (Z.shiftr bits mantissa_bits) (Z.ones exponent_bits) in
  let m := Z.land bits (Z.ones mantissa_bits) in
  let bias := (2 ^ (exponent_bits - 1) - 1)%Z in
  if (e =? Z.ones exponent_bits)%Z then
    if (m =? 0)%Z then SpecFloat.S754_infinity negative
    else SpecFloat.S754_nan
  else if (e =? 0)%Z then
    finite_float negative m (1 - bias - mantissa_bits)
  else
    finite_float negative (2 ^ mantissa_bits + m)
                 (e - bias - mantissa_bits).

(** One value of format [c] from exactly [calcsize c] bytes. *)
Definition unpack_one (is_little_endian : bool) (c : struct_code)
           (bs : bytes) : number :=
  let u := uint_of is_little_endian bs in
  match c with
  | code_H => PyInt u
  | code_h => PyInt (to_signed 16%Z u)
  | code_L => PyInt u
  | code_l => PyInt (to_signed 32%Z u)
  | code_f => PyFloat (ieee_value 23 8 u)
  | code_d => PyFloat (ieee_value 52 11 u)
  end.

Fixpoint unpack_values (is_little_endian : bool) (c : struct_code)
         (count : nat) (bs : bytes) : list number :=
  match count with
  | O => []
  | S n =>
      unpack_one is_little_endian c (firstn (calcsize c) bs)
      :: unpack_values is_little_endian c n (skipn (calcsize c) bs)
  end.

(** [unpack("%c%u%c" % (endianChar, count, struct_format), byte_string)]:
    the buffer must have exactly the size the format asks for. *)
Definition unpack (is_little_endian : bool) (count : nat) (c : struct_code)
           (byte_string : bytes) : M (list number) :=
  if Nat.eqb (length byte_string) (count * calcsize c)
  then ret (unpack_values is_little_endian c count byte_string)
  else raise struct_error.

(** [unpack("<HH", b)] or [unpack(">HH", b)] *)
Definition unpack_HH (is_little_endian : bool) (b : bytes) : M (Z * Z) :=
  if Nat.eqb (length b) 4
  then ret (uint_of is_little_endian (firstn 2 b),
            uint_of is_little_endian (firstn 2 (skipn 2 b)))
  else raise struct_error.

(** [range(0, stop, step)] for a positive step. *)
Fixpoint range_from (start : nat) (count : nat) (step : nat) : list nat :=
  match count with
  | O => []
  | S n => start :: range_from (start + step) n step
  end.

Definition range_step (stop step : nat) : list nat :=
  range_from 0 ((stop + step - 1) / step) step.

(* ------------------------------------------------------------------ *)
(** ** [bytes] and [str] methods *)

(** [s.split(sep)] for a one-element separator: never empty. *)
Fixpoint split_on {A} (is_sep : A -> bool) (s : list A) : list (list A) :=
  match s with
  | [] => [[]]
  | c :: r =>
      if is_sep c then [] :: split_on is_sep r
      else match split_on is_sep r with
           | p :: ps => (c :: p) :: ps
           | [] => [[c]]
           end
  end.

Definition backslash_byte : byte := x5c.
Definition space_byte : byte := x20.
Definition nul_byte : byte := x00.

Definition is_byte (b c : byte) : bool := Byte.eqb c b.

(** [byte_string.split(b"\\")] *)
Definition bytes_split_backslash (b : bytes) : list bytes :=
  split_on (is_byte backslash_byte) b.

(** [byte_string.endswith(suffix)] for a one-byte suffix *)
Definition bytes_endswith (b : bytes) (suffix : byte) : bool :=
  match rev b with
  | [] => false
  | c :: _ => Byte.eqb c suffix
  end.

(** [x[:-1]] *)
Definition drop_last {A} (x : list A) : list A := removelast x.

Definition backslash : N := 92%N.
Definition space : N := 32%N.
Definition nul : N := 0%N.

(** [s.split("\\")] *)
Definition str_split_backslash (s : pystr) : list pystr :=
  split_on (N.eqb backslash) s.

Definition str_endswith (s : pystr) (suffix : N) : bool :=
  match rev s with
  | [] => false
  | c :: _ => N.eqb c suffix
  end.

(** The characters [str.strip] removes. *)
Definition isspace (c : N) : bool :=
  ((9 <=? c) && (c <=? 13) || (28 <=? c) && (c <=? 32)
   || (c =? 133) || (c =? 160) || (c =? 5760)
   || (8192 <=? c) && (c <=? 8202)
   || (c =? 8232) || (c =? 8233) || (c =? 8239) || (c =? 8287)
   || (c =? 12288))%N.

Fixpoint lstrip (s : pystr) : pystr :=
  match s with
  | [] => []
  | c :: r => if isspace c then lstrip r else s
  end.

Definition rstrip (s : pystr) : pystr := rev (lstrip (rev s)).
Definition strip (s : pystr) : pystr := rstrip (lstrip s).

(* ------------------------------------------------------------------ *)
(** ** Values, elements and the environment *)

Section Values.

(** Objects built by the collaborators: dates, times, person names, UIDs,
    [DS]/[IS] numbers, parsed sequences. *)
Variable obj : Type.

#[local] Unset Elimination Schemes.
Inductive PyValue :=
| VBytes (b : bytes)
| VStr (s : pystr)
| VNum (n : number)
| VTag (t : BaseTag)
| VList (l : list PyValue)        (* a Python list *)
| VMultiValue (l : list PyValue)  (* pydicom.multival.MultiValue *)
| VArray (l : list number)        (* a numpy array *)
| VObj (o : obj).
#[local] Set Elimination Schemes.

(** [pydicom.dataelem.RawDataElement] *)
Record RawDataElement := {
  tag : BaseTag;
  raw_VR : string;
  value : bytes;
  value_tell : Z;
  is_implicit_VR : bool;
  is_little_endian : bool
}.

(** An [encoding] argument: one codec name, or a list of them. *)
Inductive encoding_value :=
| enc_str (name : string)
| enc_list (names : list string).

(** What arrives as [read_sequence]'s [is_little_endian]. *)
Inductive endian_arg :=
| endian_bool (b : bool)
| endian_format (num_format : option struct_code).

(** The [valtype] handed to [MultiString]. *)
Inductive valtype := valtype_str | valtype_UID | valtype_IS | valtype_DSclass.

Inductive dtype := dtype_i8 | dtype_f8.

(** A collaborator returns or raises; it does not write to this module's
    logger. *)
Inductive result (A : Type) :=
| Ok (a : A)
| Err (e : exn).
Arguments Ok {A} a.
Arguments Err {A} e.

Definition lift {A} (r : result A) : M A :=
  match r with
  | Ok a => ret a
  | Err e => raise e
  end.

Record environment := {
  (* pydicom.config *)
  enforce_valid_values : bool;
  datetime_conversion : bool;
  (* pydicom.charset *)
  default_encoding : string;
  text_VRs : list string;
  (* bytes.decode(name) for a codec name *)
  codec_decode : string -> bytes -> result pystr;
  (* pydicom.valuerep *)
  MultiString : pystr -> valtype -> result PyValue;
  DA : pystr -> result PyValue;
  DT : pystr -> result PyValue;
  TM : pystr -> result PyValue;
  (* PersonName(x, encodings).decode(); None when no encodings are given *)
  PersonName : bytes -> option encoding_value -> result PyValue;
  (* pydicom.filereader *)
  read_sequence :
    bytes -> bool -> endian_arg -> nat -> encoding_value -> Z -> result PyValue;
  (* numpy.fromstring(text, dtype=..., sep=chr(92)) *)
  numpy_fromstring : pystr -> dtype -> result (list number)
}.

Variable env : environment.

(** [byte_string.decode(encoding)]: the codec name must be a [str]. *)
Definition decode (byte_string : bytes) (encoding : encoding_value)
  : M pystr :=
  match encoding with
  | enc_str name => lift (codec_decode env name byte_string)
  | enc_list _ => raise TypeError
  end.

(** [MultiValue(type_constructor, iterable)].
    Modelled from the spec: [pydicom.multival.MultiValue] is not in this
    module; it is the ordered multi-value container of the constructed
    elements, each built from its item in order. *)
Definition MultiValue {A} (type_constructor : A -> M PyValue)
           (iterable : list A) : M PyValue :=
  l <- mapM type_constructor iterable ;; ret (VMultiValue l).

(* ------------------------------------------------------------------ *)
(** ** The converters *)

Definition convert_tag (byte_string : bytes) (is_little_endian : bool)
           (offset : nat) : M BaseTag :=
  p <- unpack_HH is_little_endian (firstn 4 (skipn offset byte_string)) ;;
  ret (TupleTag p).

Definition convert_AE_string (byte_string : bytes) (is_little_endian : bool)
           (encoding : encoding_value) : M PyValue :=
  s <- decode byte_string encoding ;;
  ret (VStr (strip s)).

Definition convert_ATvalue (byte_string : bytes) (is_little_endian : bool)
  : M PyValue :=
  let length := length byte_string in
  if Nat.eqb length 4 then
    t <- convert_tag byte_string is_little_endian 0 ;; ret (VTag t)
  else
    (if negb (Nat.eqb (length mod 4) 0) then log (warn_AT_length length)
     else ret tt) ;;;
    tags <- mapM (fun x => convert_tag byte_string is_little_endian x)
                 (range_step length 4) ;;
    MultiValue (fun t => ret (VTag (Tag t))) tags.

Definition convert_string (byte_string : bytes) (is_little_endian : bool)
           (encoding : encoding_value) : M PyValue :=
  s <- decode byte_string encoding ;;
  lift (MultiString env s valtype_str).

Definition _DA_from_byte_string (byte_string : pystr) : M PyValue :=
  lift (DA env (rstrip byte_string)).

Definition convert_DA_string (byte_string : bytes) (is_little_endian : bool)
  : M PyValue :=
  if datetime_conversion env then
    s <- decode byte_string (enc_str (default_encoding env)) ;;
    let splitup := str_split_backslash s in
    match splitup with
    | [x] => _DA_from_byte_string x
    | _ => MultiValue _DA_from_byte_string splitup
    end
  else
    convert_string byte_string is_little_endian
                   (enc_str (default_encoding env)).

Definition convert_DS_string (byte_string : bytes) (is_little_endian : bool)
  : M PyValue :=
  s <- decode byte_string (enc_str (default_encoding env)) ;;
  lift (MultiString env (strip s) valtype_DSclass).

Definition _DT_from_byte_string (byte_string : pystr) : M PyValue :=
  let byte_string := rstrip byte_string in
  let length := length byte_string in
  (if (length <? 4) || (26 <? length) then log (warn_DT_length length)
   else ret tt) ;;;
  lift (DT env byte_string).

Definition convert_DT_string (byte_string : bytes) (is_little_endian : bool)
  : M PyValue :=
  if datetime_conversion env then
    s <- decode byte_string (enc_str (default_encoding env)) ;;
    let splitup := str_split_backslash s in
    match splitup with
    | [x] => _DT_from_byte_string x
    | _ => MultiValue _DT_from_byte_string splitup
    end
  else
    convert_string byte_string is_little_endian
                   (enc_str (default_encoding env)).

Definition convert_IS_string (byte_string : bytes) (is_little_endian : bool)
  : M PyValue :=
  s <- decode byte_string (enc_str (default_encoding env)) ;;
  lift (MultiString env s valtype_IS).

Definition convert_numbers (byte_string : bytes) (is_little_endian : bool)
           (struct_format : option struct_code) : M PyValue :=
  match struct_format with
  | None => raise TypeError        (* "=" + None *)
  | Some struct_format =>
      let bytes_per_value := calcsize struct_format in
      let length := length byte_string in
      (if negb (Nat.eqb (length mod bytes_per_value) 0)
       then log warning_number_size else ret tt) ;;;
      value <- unpack is_little_endian (length / bytes_per_value)
                      struct_format byte_string ;;
      match value with
      | [] => ret (VStr [])
      | [v] => ret (VNum v)
      | _ => ret (VList (map VNum value))
      end
  end.

Definition convert_OBvalue (byte_string : bytes) (is_little_endian : bool)
  : M PyValue :=
  ret (VBytes byte_string).

Definition convert_OWvalue (byte_string : bytes) (is_little_endian : bool)
  : M PyValue :=
  convert_OBvalue byte_string is_little_endian.

(** [bool(encoding)] *)
Definition truthy (encoding : option encoding_value) : bool :=
  match encoding with
  | None => false
  | Some (enc_str name) => negb (String.eqb name "")
  | Some (enc_list names) => negb (Nat.eqb (length names) 0)
  end.

Definition convert_PN (byte_string : bytes) (is_little_endian : bool)
           (encoding : option encoding_value) : M PyValue :=
  let get_valtype (x : bytes) : M PyValue :=
    if truthy encoding then lift (PersonName env x encoding)
    else lift (PersonName env x None) in
  let ends_with1 := bytes_endswith byte_string space_byte in
  let ends_with2 := bytes_endswith byte_string nul_byte in
  let byte_string :=
    if negb (Nat.eqb (length byte_string) 0) && (ends_with1 || ends_with2)
    then drop_last byte_string else byte_string in
  let splitup := bytes_split_backslash byte_string in
  match splitup with
  | [x] => get_valtype x
  | _ => MultiValue get_valtype splitup
  end.

Definition convert_single_string (byte_string : bytes)
           (is_little_endian : bool) (encoding : encoding_value) : M PyValue :=
  s <- decode byte_string encoding ;;
  let s := if negb (Nat.eqb (length s) 0) && str_endswith s space
           then drop_last s else s in
  ret (VStr s).

Definition convert_SQ (byte_string : bytes) (is_implicit_VR : bool)
           (is_little_endian : endian_arg) (encoding : encoding_value)
           (offset : Z) : M PyValue :=
  lift (read_sequence env byte_string is_implicit_VR is_little_endian
                      (length byte_string) encoding offset).

Definition _TM_from_byte_string (byte_string : pystr) : M PyValue :=
  let byte_string := rstrip byte_string in
  let length := length byte_string in
  (if ((length <? 2) || (16 <? length)) && negb (Nat.eqb length 0)
   then log (warn_TM_length length) else ret tt) ;;;
  lift (TM env byte_string).

Definition convert_TM_string (byte_string : bytes) (is_little_endian : bool)
  : M PyValue :=
  if datetime_conversion env then
    s <- decode byte_string (enc_str (default_encoding env)) ;;
    let splitup := str_split_backslash s in
    match splitup with
    | [x] => _TM_from_byte_string x
    | _ => MultiValue _TM_from_byte_string splitup
    end
  else
    convert_string byte_string is_little_endian
                   (enc_str (default_encoding env)).

Definition convert_UI (byte_string : bytes) (is_little_endian : bool)
  : M PyValue :=
  s <- decode byte_string (enc_str (default_encoding env)) ;;
  let s := if negb (Nat.eqb (length s) 0) && str_endswith s nul
           then drop_last s else s in
  lift (MultiString env s valtype_UID).

Definition convert_UN (byte_string : bytes) (is_little_endian : bool)
  : M PyValue :=
  ret (VBytes byte_string).

Definition convert_UR_string (byte_string : bytes) (is_little_endian : bool)
           (encoding : encoding_value) : M PyValue :=
  s <- decode byte_string encoding ;;
  ret (VStr (rstrip s)).

(* ------------------------------------------------------------------ *)
(** ** The numpy path for IS and DS *)

Definition is_digit (c : N) : bool := ((48 <=? c) && (c <=? 57))%N.

(** The character class of [r'[ \\0-9\.+-]']: space, backslash, digits,
    full stop, plus, minus. *)
Definition IS_class (c : N) : bool :=
  ((c =? 32) || (c =? 92) || is_digit c || (c =? 46) || (c =? 43)
   || (c =? 45))%N.

(** The character class of [r'[ \\0-9\.+eE-]']. *)
Definition DS_class (c : N) : bool :=
  ((c =? 32) || (c =? 92) || is_digit c || (c =? 46) || (c =? 43)
   || (c =? 101) || (c =? 69) || (c =? 45))%N.

(** [re.match(r'[...]*\Z', s) is not None]: the star takes characters of
    the class and [\Z] only matches at the very end of [s]. *)
Fixpoint re_match_star_Z (class : N -> bool) (s : pystr) : bool :=
  match s with
  | [] => true
  | c :: r => if class c then re_match_star_Z class r else false
  end.

(** [re.sub(r'[...]*', '', s)]: every run of class characters goes. *)
Fixpoint re_sub_star (class : N -> bool) (s : pystr) : pystr :=
  match s with
  | [] => []
  | c :: r => if class c then re_sub_star class r else c :: re_sub_star class r
  end.

Definition regex_class (VR : string) : N -> bool :=
  if String.eqb VR "IS" then IS_class else DS_class.

Definition repertoire_message (VR : string) (residue : pystr) : pystr :=
  str_of VR ++ str_of ": char(s) not in repertoire: '" ++ residue
         ++ str_of "'".

(** Lines 333-336: the repertoire check on the decoded text. *)
Definition check_repertoire (VR : string) (num_str : pystr) : M unit :=
  let class := regex_class VR in
  if negb (re_match_star_Z class num_str)
  then raise (ValueError
                (repertoire_message VR (re_sub_star class num_str)))
  else ret tt.

(** [encoding[0]] *)
Definition encoding_item0 (encoding : encoding_value) : M encoding_value :=
  match encoding with
  | enc_list (name :: _) => ret (enc_str name)
  | enc_list [] => raise IndexError
  | enc_str (String c _) => ret (enc_str (String c EmptyString))
  | enc_str EmptyString => raise IndexError
  end.

(** Lines 327-330: decode with [encoding], or with its first item when
    that is a [TypeError]. *)
Definition decode_num_str (raw_data_element : RawDataElement)
           (encoding : encoding_value) : M pystr :=
  try_except (decode (value raw_data_element) encoding)
             isinstance_TypeError
             (fun _ =>
                e0 <- encoding_item0 encoding ;;
                decode (value raw_data_element) e0).

Definition convert_value_num_str (VR : string)
           (raw_data_element : RawDataElement) (encoding : encoding_value)
  : M PyValue :=
  num_str <- decode_num_str raw_data_element encoding ;;
  check_repertoire VR num_str ;;;
  value <- lift (numpy_fromstring env num_str
                   (if String.eqb VR "IS" then dtype_i8 else dtype_f8)) ;;
  match value with
  | [v] => ret (VNum v)
  | _ => ret (VArray value)
  end.

(* ------------------------------------------------------------------ *)
(** ** Dispatch and retry *)

(** The functions a registry can name. *)
Inductive converter :=
| fn_convert_numbers
| fn_convert_OBvalue
| fn_convert_UI
| fn_convert_string
| fn_convert_DA_string
| fn_convert_TM_string
| fn_convert_PN
| fn_convert_IS_string
| fn_convert_DS_string
| fn_convert_AE_string
| fn_convert_single_string
| fn_convert_SQ
| fn_convert_UN
| fn_convert_UR_string
| fn_convert_ATvalue
| fn_convert_OWvalue
| fn_convert_DT_string.

(** A registry value: a function, or a pair [(function, struct_format)]. *)
Inductive registered :=
| function (f : converter)
| tuple (f : converter) (num_format : struct_code).

(** The third argument of a call [converter(byte_string,
    is_little_endian, ...)]: positional, or the keyword [encoding=]. *)
Inductive third_argument :=
| positional (num_format : option struct_code)
| keyword_encoding (encoding : encoding_value).

(** Argument binding.  A positional third argument lands in
    [struct_format] (in [is_little_endian] for [convert_SQ]); a function
    without an [encoding] parameter rejects the keyword. *)
Definition call (f : converter) (byte_string : bytes)
           (is_little_endian : bool) (a : third_argument) : M PyValue :=
  let default := enc_str (default_encoding env) in
  let encoding_or (d : encoding_value) :=
    match a with
    | positional _ => d
    | keyword_encoding e => e
    end in
  let no_encoding (m : M PyValue) :=
    match a with
    | positional _ => m
    | keyword_encoding _ => raise TypeError
    end in
  match f with
  | fn_convert_numbers =>
      match a with
      | positional num_format =>
          convert_numbers byte_string is_little_endian num_format
      | keyword_encoding _ => raise TypeError
      end
  | fn_convert_OBvalue =>
      no_encoding (convert_OBvalue byte_string is_little_endian)
  | fn_convert_UI => no_encoding (convert_UI byte_string is_little_endian)
  | fn_convert_string =>
      convert_string byte_string is_little_endian (encoding_or default)
  | fn_convert_DA_string =>
      no_encoding (convert_DA_string byte_string is_little_endian)
  | fn_convert_TM_string =>
      no_encoding (convert_TM_string byte_string is_little_endian)
  | fn_convert_PN =>
      convert_PN byte_string is_little_endian
                 match a with
                 | positional _ => None
                 | keyword_encoding e => Some e
                 end
  | fn_convert_IS_string =>
      no_encoding (convert_IS_string byte_string is_little_endian)
  | fn_convert_DS_string =>
      no_encoding (convert_DS_string byte_string is_little_endian)
  | fn_convert_AE_string =>
      convert_AE_string byte_string is_little_endian (encoding_or default)
  | fn_convert_single_string =>
      convert_single_string byte_string is_little_endian
                            (encoding_or default)
  | fn_convert_SQ =>
      match a with
      | positional num_format =>
          convert_SQ byte_string is_little_endian (endian_format num_format)
                     default 0%Z
      | keyword_encoding _ => raise TypeError
      end
  | fn_convert_UN => no_encoding (convert_UN byte_string is_little_endian)
  | fn_convert_UR_string =>
      convert_UR_string byte_string is_little_endian (encoding_or default)
  | fn_convert_ATvalue =>
      no_encoding (convert_ATvalue byte_string is_little_endian)
  | fn_convert_OWvalue =>
      no_encoding (convert_OWvalue byte_string is_little_endian)
  | fn_convert_DT_string =>
      no_encoding (convert_DT_string byte_string is_little_endian)
  end.

(** [d[key]] / [key in d] for a dict written as its items. *)
Fixpoint lookup {A} (key : string) (d : list (string * A)) : option A :=
  match d with
  | [] => None
  | (k, v) :: r => if String.eqb key k then Some v else lookup key r
  end.

(** The module globals [converters] and [convert_retry_VR_order], as
    [convert_value] finds them when it is called. *)
Variable registry : list (string * registered).
Variable retry_order : list string.

Definition unknown_VR_message (VR : string) : pystr :=
  str_of "Unknown Value Representation '" ++ str_of VR ++ str_of "'".

(** [[encoding, ] * 3] when [encoding] is a string *)
Definition three_element_format (encoding : encoding_value) : list string :=
  match encoding with
  | enc_str name => [name; name; name]
  | enc_list names => names
  end.

(** [encoding[1]] *)
Definition encoding_item1 (names : list string) : M encoding_value :=
  match nth_error names 1 with
  | Some name => ret (enc_str name)
  | None => raise IndexError
  end.

Definition in_list (VR : string) (l : list string) : bool :=
  existsb (String.eqb VR) l.

(** Lines 371-389: the body of the [try]. *)
Definition primary_conversion (VR : string) (entry : registered)
           (raw_data_element : RawDataElement) (encoding : list string)
  : M PyValue :=
  let (converter, num_format) :=
    match entry with
    | tuple f fmt => (f, Some fmt)
    | function f => (f, None)
    end in
  let byte_string := value raw_data_element in
  let is_little_endian := is_little_endian raw_data_element in
  let is_implicit_VR := is_implicit_VR raw_data_element in
  if String.eqb VR "PN" then
    call converter byte_string is_little_endian
         (keyword_encoding (enc_list encoding))
  else if in_list VR (text_VRs env) then
    e1 <- encoding_item1 encoding ;;
    call converter byte_string is_little_endian (keyword_encoding e1)
  else if negb (String.eqb VR "SQ") then
    call converter byte_string is_little_endian (positional num_format)
  else
    convert_SQ byte_string is_implicit_VR (endian_bool is_little_endian)
               (enc_list encoding) (value_tell raw_data_element).

(** Lines 397-411: the [for ... else] over the retry order.
    [convert_value_vr] is the recursive call. *)
Fixpoint retry (convert_value_vr : string -> M PyValue) (VR : string)
         (raw_data_element : RawDataElement) (order : list string)
  : M PyValue :=
  match order with
  | [] =>
      log (debug_could_not_convert (tag raw_data_element)) ;;;
      ret (VBytes (value raw_data_element))
  | vr :: rest =>
      if String.eqb vr VR then
        retry convert_value_vr VR raw_data_element rest
      else
        attempt <- try_except
                     (v <- convert_value_vr vr ;;
                      log (debug_converted (tag raw_data_element) vr) ;;;
                      ret (Some v))
                     (fun _ => true)
                     (fun _ => ret None) ;;
        match attempt with
        | Some v => ret v
        | None => retry convert_value_vr VR raw_data_element rest
        end
  end.

(** [convert_value(VR, raw_data_element, encoding)].  [depth] bounds the
    nesting of recursive calls; a call that would nest deeper diverges. *)
Fixpoint convert_value (depth : nat) (VR : string)
         (raw_data_element : RawDataElement) (encoding : encoding_value)
  : M PyValue :=
  match depth with
  | O => ([], Diverge)
  | S depth' =>
      match lookup VR registry with
      | None => raise (NotImplementedError (unknown_VR_message VR))
      | Some entry =>
          let encoding := three_element_format encoding in
          try_except
            (primary_conversion VR entry raw_data_element encoding)
            isinstance_ValueError
            (fun e =>
               if enforce_valid_values env then raise e
               else
                 log (debug_unable_to_translate (tag raw_data_element) VR) ;;;
                 retry (fun vr => convert_value depth' vr raw_data_element
                                                (enc_list encoding))
                       VR raw_data_element retry_order)
      end
  end.

End Values.

Arguments VBytes {obj} b.
Arguments VStr {obj} s.
Arguments VNum {obj} n.
Arguments VTag {obj} t.
Arguments VList {obj} l.
Arguments VMultiValue {obj} l.
Arguments VArray {obj} l.
Arguments VObj {obj} o.
Arguments Ok {A} a.
Arguments Err {A} e.
Arguments enforce_valid_values {obj} e.
Arguments datetime_conversion {obj} e.
Arguments default_encoding {obj} e.
Arguments text_VRs {obj} e.
Arguments codec_decode {obj} e.
Arguments MultiString {obj} e.
Arguments DA {obj} e.
Arguments DT {obj} e.
Arguments TM {obj} e.
Arguments PersonName {obj} e.
Arguments read_sequence {obj} e.
Arguments numpy_fromstring {obj} e.

(** The retry order and the registry the module ships. *)
Definition convert_retry_VR_order : list string :=
  ["SH"; "UL"; "SL"; "US"; "SS"; "FL"; "FD"; "OF"; "OB"; "UI"; "DA"; "TM";
   "PN"; "IS"; "DS"; "LT"; "SQ"; "UN"; "AT"; "OW"; "DT"; "UT"].

Definition converters : list (string * registered) :=
  [ ("UL", tuple fn_convert_numbers code_L);
    ("SL", tuple fn_convert_numbers code_l);
    ("US", tuple fn_convert_numbers code_H);
    ("SS", tuple fn_convert_numbers code_h);
    ("FL", tuple fn_convert_numbers code_f);
    ("FD", tuple fn_convert_numbers code_d);
    ("OF", tuple fn_convert_numbers code_f);
    ("OB", function fn_convert_OBvalue);
    ("OD", function fn_convert_OBvalue);
    ("OL", function fn_convert_OBvalue);
    ("UI", function fn_convert_UI);
    ("SH", function fn_convert_string);
    ("DA", function fn_convert_DA_string);
    ("TM", function fn_convert_TM_string);
    ("CS", function fn_convert_string);
    ("PN", function fn_convert_PN);
    ("LO", function fn_convert_string);
    ("IS", function fn_convert_IS_string);
    ("DS", function fn_convert_DS_string);
    ("AE", function fn_convert_AE_string);
    ("AS", function fn_convert_string);
    ("LT", function fn_convert_single_string);
    ("SQ", function fn_convert_SQ);
    ("UC", function fn_convert_string);
    ("UN", function fn_convert_UN);
    ("UR", function fn_convert_UR_string);
    ("AT", function fn_convert_ATvalue);
    ("ST", function fn_convert_string);
    ("OW", function fn_convert_OWvalue);
    ("OW/OB", function fn_convert_OBvalue);
    ("OB/OW", function fn_convert_OBvalue);
    ("OW or OB", function fn_convert_OBvalue);
    ("OB or OW", function fn_convert_OBvalue);
    ("US or SS", function fn_convert_OWvalue);
    ("US or OW", function fn_convert_OWvalue);
    ("US or SS or OW", function fn_convert_OWvalue);
    ("US\US or SS\US", function fn_convert_OWvalue);
    ("DT", function fn_convert_DT_string);
    ("UT", function fn_convert_single_string) ].

(* ------------------------------------------------------------------ *)
(** ** A reference environment

    One concrete choice of collaborators, on which the theorems below are
    run: the codecs ['iso8859'] and ['ascii'], value types that keep the
    text they were built from, and an integer-only [fromstring]. *)

Inductive sample_obj :=
| typed_text (kind : string) (text : pystr)
| person_name (components : bytes) (encodings : option encoding_value)
| sequence (payload : bytes) (offset : Z).

Definition sample_decode (name : string) (b : bytes) : result pystr :=
  if String.eqb name "iso8859" then Ok (map Byte.to_N b)
  else if String.eqb name "ascii" then
    if forallb (fun c => (Byte.to_N c <? 128)%N) b
    then Ok (map Byte.to_N b)
    else Err UnicodeDecodeError
  else Err LookupError.

Definition sample_box (vt : valtype) (x : pystr) : PyValue sample_obj :=
  match vt with
  | valtype_str => VStr x
  | valtype_UID => VObj (typed_text "UID" x)
  | valtype_IS => VObj (typed_text "IS" x)
  | valtype_DSclass => VObj (typed_text "DS" x)
  end.

Definition sample_MultiString (s : pystr) (vt : valtype)
  : result (PyValue sample_obj) :=
  let s := if negb (Nat.eqb (length s) 0)
              && (str_endswith s space || str_endswith s nul)
           then drop_last s else s in
  match str_split_backslash s with
  | [x] => Ok (sample_box vt x)
  | xs => Ok (VMultiValue (map (sample_box vt) xs))
  end.

Fixpoint digits_value (acc : Z) (s : pystr) : option Z :=
  match s with
  | [] => Some acc
  | c :: r =>
      if is_digit c then digits_value (10 * acc + (Z.of_N c - 48))%Z r
      else None
  end.

(** An optionally signed, non-empty run of digits between blanks. *)
Definition sample_int (s : pystr) : option Z :=
  match strip s with
  | [] => None
  | c :: r =>
      if (c =? 45)%N then
        match r with [] => None | _ => option_map Z.opp (digits_value 0 r) end
      else if (c =? 43)%N then
        match r with [] => None | _ => digits_value 0 r end
      else digits_value 0 (c :: r)
  end.

(** Numbers are taken up to the first component that is not one. *)
Fixpoint sample_ints (components : list pystr) : list number :=
  match components with
  | [] => []
  | x :: r =>
      match sample_int x with
      | Some z => PyInt z :: sample_ints r
      | None => []
      end
  end.

(** The reference [fromstring] reads integers only. *)
Definition sample_fromstring (s : pystr) (d : dtype) : result (list number) :=
  match d with
  | dtype_i8 => Ok (sample_ints (str_split_backslash s))
  | dtype_f8 => Err (OtherError "NotImplementedError")
  end.

Definition sample_env (strict : bool) : environment sample_obj :=
  {| enforce_valid_values := strict;
     datetime_conversion := true;
     default_encoding := "iso8859";
     text_VRs := ["SH"; "LO"; "ST"; "LT"; "UC"; "UT"];
     codec_decode := sample_decode;
     MultiString := sample_MultiString;
     DA := fun s => Ok (VObj (typed_text "DA" s));
     DT := fun s => Ok (VObj (typed_text "DT" s));
     TM := fun s => Ok (VObj (typed_text "TM" s));
     PersonName := fun x e => Ok (VObj (person_name x e));
     read_sequence := fun b _ _ _ _ offset => Ok (VObj (sequence b offset));
     numpy_fromstring := sample_fromstring |}.

Definition sample_element (payload : bytes) : RawDataElement :=
  {| tag := mkTag 16 16;
     raw_VR := "UN";
     value := payload;
     value_tell := 0%Z;
     is_implicit_VR := false;
     is_little_endian := true |}.

(** The repertoire as the specification words it: digits, the delimiter,
    the sign characters and, for the decimal string only, the decimal point
    and the exponent markers. *)
Definition stated_repertoire (VR : string) (c : N) : bool :=
  (is_digit c || (c =? 92) || (c =? 43) || (c =? 45)
   || (if String.eqb VR "IS" then false
       else (c =? 46) || (c =? 101) || (c =? 69)))%N.

(** The unsigned number a run of bytes spells in a byte order, said by
    position: in little-endian order byte [i] weighs [256 ^ i]; in
    big-endian order the bytes are the digits of the number, most
    significant first. *)
Fixpoint little_endian_sum (i : nat) (bs : bytes) : Z :=
  match bs with
  | [] => 0%Z
  | b :: r =>
      (byte_val b * 256 ^ Z.of_nat i + little_endian_sum (S i) r)%Z
  end.

Fixpoint big_endian_digits (acc : Z) (bs : bytes) : Z :=
  match bs with
  | [] => acc
  | b :: r => big_endian_digits (256 * acc + byte_val b)%Z r
  end.

Definition stream_uint (is_little_endian : bool) (w : bytes) : Z :=
  if is_little_endian then little_endian_sum 0 w
  else big_endian_digits 0 w.

(** The two's-complement reading of a [bits]-bit unsigned number. *)
Definition twos_complement (bits u : Z) : Z :=
  ((u + 2 ^ (bits - 1)) mod 2 ^ bits - 2 ^ (bits - 1))%Z.

(** The value of one window of the stream under a format and a byte
    order. *)
Definition stream_value (is_little_endian : bool) (c : struct_code)
           (w : bytes) : number :=
  let u := stream_uint is_little_endian w in
  match c with
  | code_H | code_L => PyInt u
  | code_h => PyInt (twos_complement 16 u)
  | code_l => PyInt (twos_complement 32 u)
  | code_f => PyFloat (ieee_value 23 8 u)
  | code_d => PyFloat (ieee_value 52 11 u)
  end.

(** The first [count] windows of [width] bytes, in stream order. *)
Definition windows (width count : nat) (bs : bytes) : list bytes :=
  map (fun i => firstn width (skipn (i * width) bs)) (seq 0 count).

(** The tag of one 4-byte window: the group, then the element. *)
Definition stream_tag (is_little_endian : bool) (w : bytes) : BaseTag :=
  mkTag (stream_uint is_little_endian (firstn 2 w))
        (stream_uint is_little_endian (skipn 2 w)).

(** A tag read from one 4-byte window: two 16-bit fields. *)
Definition tag_of_window (is_little_endian : bool) (w : bytes) : BaseTag :=
  mkTag (uint_of is_little_endian (firstn 2 w))
        (uint_of is_little_endian (skipn 2 w)).

Arguments convert_numbers {obj} byte_string is_little_endian struct_format.
Arguments convert_ATvalue {obj} byte_string is_little_endian.
Arguments convert_OBvalue {obj} byte_string is_little_endian.
Arguments convert_PN {obj} env byte_string is_little_endian encoding.
Arguments convert_value {obj} env registry retry_order depth VR
  raw_data_element encoding.
Arguments primary_conversion {obj} env VR entry raw_data_element encoding.
Arguments retry {obj} convert_value_vr VR raw_data_element order.
Arguments call {obj} env f byte_string is_little_endian a.
Arguments MultiValue {obj A} type_constructor iterable.
Arguments convert_single_string {obj} env byte_string is_little_endian encoding.
Arguments convert_UI {obj} env byte_string is_little_endian.
Arguments convert_AE_string {obj} env byte_string is_little_endian encoding.
Arguments convert_UR_string {obj} env byte_string is_little_endian encoding.
Arguments _DT_from_byte_string {obj} env byte_string.
Arguments _TM_from_byte_string {obj} env byte_string.
Arguments convert_value_num_str {obj} env VR raw_data_element encoding.
Arguments decode_num_str {obj} env raw_data_element encoding.

(** The VRs ahead of OB in the retry order, SH apart, are numeric. *)
Definition numeric_VRs : list string :=
  ["UL"; "SL"; "US"; "SS"; "FL"; "FD"; "OF"].

(** The VRs and aliases the shipped registry sends to [convert_OBvalue],
    [convert_OWvalue] or [convert_UN]. *)
Definition opaque_VRs : list string :=
  ["OB"; "OD"; "OL"; "UN"; "OW"; "OW/OB"; "OB/OW"; "OW or OB"; "OB or OW";
   "US or SS"; "US or OW"; "US or SS or OW"; "US\US or SS\US"].

(** The numeric VRs with the [struct] format the shipped registry pairs
    them with. *)
Definition numeric_formats : list (string * struct_code) :=
  [("UL", code_L); ("SL", code_l); ("US", code_H); ("SS", code_h);
   ("FL", code_f); ("FD", code_d); ("OF", code_f)].

(** The formats that unpack to a Python [int]. *)
Definition integer_format (c : struct_code) : bool :=
  match c with
  | code_H | code_h | code_L | code_l => true
  | code_f | code_d => false
  end.

(** The range of what one format character unpacks to. *)
Definition in_format_range (c : struct_code) (n : number) : Prop :=
  match c, n with
  | code_H, PyInt z => (0 <= z < 2 ^ 16)%Z
  | code_h, PyInt z => (- 2 ^ 15 <= z < 2 ^ 15)%Z
  | code_L, PyInt z => (0 <= z < 2 ^ 32)%Z
  | code_l, PyInt z => (- 2 ^ 31 <= z < 2 ^ 31)%Z
  | code_f, PyFloat f =>
      exists bits, (0 <= bits < 2 ^ 32)%Z /\ f = ieee_value 23 8 bits
  | code_d, PyFloat f =>
      exists bits, (0 <= bits < 2 ^ 64)%Z /\ f = ieee_value 52 11 bits
  | _, _ => False
  end.

(** The numbers of a [convert_numbers] result. *)
Definition numbers_of {obj} (v : PyValue obj) : list number :=
  let number_of x := match x with VNum n => [n] | _ => [] end in
  match v with
  | VNum n => [n]
  | VList l => flat_map number_of l
  | _ => []
  end.

(** The tags of a [convert_ATvalue] result. *)
Definition tags_of {obj} (v : PyValue obj) : list BaseTag :=
  let tag_of x := match x with VTag t => [t] | _ => [] end in
  match v with
  | VTag t => [t]
  | VMultiValue l => flat_map tag_of l
  | _ => []
  end.

Definition is_16bit (t : BaseTag) : Prop :=
  (0 <= group t < 2 ^ 16)%Z /\ (0 <= element t < 2 ^ 16)%Z.

(** [sep.join(parts)] for a one-element separator. *)
Fixpoint join {A} (sep : A) (parts : list (list A)) : list A :=
  match parts with
  | [] => []
  | [x] => x
  | x :: r => x ++ sep :: join sep r
  end.

(** A scalar for one element, a multi-value otherwise. *)
Definition scalar_or_multi {obj} (vs : list (PyValue obj)) : PyValue obj :=
  match vs with
  | [v] => v
  | _ => VMultiValue vs
  end.

(** The encodings [get_valtype] hands to [PersonName]. *)
Definition encodings_used (encoding : option encoding_value)
  : option encoding_value :=
  if truthy encoding then encoding else None.

(** A computation ends, and what it raises, if anything, is in [P]. *)
Definition outcome_in {A} (P : exn -> Prop) (m : M A) : Prop :=
  match value_of m with
  | Return _ => True
  | Raise e => P e
  | Diverge => False
  end.

Definition result_in {A} (P : exn -> Prop) (r : result A) : Prop :=
  match r with
  | Ok _ => True
  | Err e => P e
  end.

(** What the collaborators [convert_value] reaches raise is in [P]. *)
Record collaborators_raise {obj} (P : exn -> Prop) (env : environment obj)
  : Prop := {
  codec_decode_in : forall name b, result_in P (codec_decode env name b);
  MultiString_in : forall s vt, result_in P (MultiString env s vt);
  DA_in : forall s, result_in P (DA env s);
  DT_in : forall s, result_in P (DT env s);
  TM_in : forall s, result_in P (TM env s);
  PersonName_in : forall x e, result_in P (PersonName env x e);
  read_sequence_in :
    forall b i le n enc off,
      result_in P (read_sequence env b i le n enc off)
}.

Definition is_NotImplementedError (e : exn) : Prop :=
  exists message, e = NotImplementedError message.

(* ------------------------------------------------------------------ *)
(** ** Byte order and [struct.unpack] *)

Lemma byte_val_range (b : byte) : (0 <= byte_val b < 256)%Z.
Proof.
  unfold byte_val. pose proof (Byte.to_N_bounded b) as H.
  split; [apply N2Z.is_nonneg|]. lia.
Qed.

Lemma le_uint_app (a b : bytes) :
  le_uint (a ++ b) = (le_uint a + 256 ^ Z.of_nat (length a) * le_uint b)%Z.
Proof.
  induction a as [|x a IH]; cbn [le_uint app length].
  - change (256 ^ Z.of_nat 0)%Z with 1%Z. lia.
  - rewrite IH, Nat2Z.inj_succ, Z.pow_succ_r by lia. lia.
Qed.

(** Little endian: the first byte is the least significant one. *)
Lemma uint_of_little_endian (b : byte) (r : bytes) :
  uint_of true (b :: r) = (byte_val b + 256 * uint_of true r)%Z.
Proof. reflexivity. Qed.

(** Big endian: the first byte is the most significant one. *)
Lemma uint_of_big_endian (b : byte) (r : bytes) :
  uint_of false (b :: r)
  = (byte_val b * 256 ^ Z.of_nat (length r) + uint_of false r)%Z.
Proof.
  unfold uint_of. cbn [rev]. rewrite le_uint_app, length_rev.
  cbn [le_uint]. lia.
Qed.

Lemma le_uint_range (bs : bytes) :
  (0 <= le_uint bs < 256 ^ Z.of_nat (length bs))%Z.
Proof.
  induction bs as [|b r IH]; cbn [le_uint length].
  - change (256 ^ Z.of_nat 0)%Z with 1%Z. lia.
  - rewrite Nat2Z.inj_succ, Z.pow_succ_r by lia.
    pose proof (byte_val_range b). lia.
Qed.

Lemma uint_of_range (le : bool) (bs : bytes) :
  (0 <= uint_of le bs < 256 ^ Z.of_nat (length bs))%Z.
Proof.
  unfold uint_of. destruct le.
  - apply le_uint_range.
  - rewrite <- (length_rev bs). apply le_uint_range.
Qed.

(** A signed read of [bits] bits lands in the two's-complement range. *)
Lemma to_signed_range (bits u : Z) :
  (0 < bits)%Z -> (0 <= u < 2 ^ bits)%Z ->
  (- 2 ^ (bits - 1) <= to_signed bits u < 2 ^ (bits - 1))%Z.
Proof.
  intros Hb Hu. unfold to_signed.
  assert (E : (2 ^ bits = 2 * 2 ^ (bits - 1))%Z).
  { rewrite <- Z.pow_succ_r by lia. f_equal. lia. }
  destruct (Z.ltb_spec u (2 ^ (bits - 1))); lia.
Qed.

Lemma unpack_values_length le c n bs :
  length (unpack_values le c n bs) = n.
Proof.
  revert bs; induction n as [|n IH]; intros bs; cbn [unpack_values length].
  - reflexivity.
  - now rewrite IH.
Qed.

(** The [i]-th value comes from the [i]-th window of the buffer. *)
Lemma unpack_values_nth le c n bs i :
  i < n ->
  nth_error (unpack_values le c n bs) i
  = Some (unpack_one le c
            (firstn (calcsize c) (skipn (i * calcsize c) bs))).
Proof.
  revert bs i; induction n as [|n IH]; intros bs i Hi; [lia|].
  destruct i as [|i]; cbn [unpack_values nth_error].
  - reflexivity.
  - rewrite IH by lia. rewrite skipn_skipn.
    replace (i * calcsize c + calcsize c) with (S i * calcsize c) by (cbn; lia).
    reflexivity.
Qed.

Lemma calcsize_pos c : 0 < calcsize c.
Proof. destruct c; cbn; lia. Qed.

Lemma unpack_exact le n c bs :
  length bs = n * calcsize c ->
  unpack le n c bs = ([], Return (unpack_values le c n bs)).
Proof.
  intros H. unfold unpack. rewrite H, Nat.eqb_refl. reflexivity.
Qed.

Lemma unpack_wrong_size le n c bs :
  length bs <> n * calcsize c ->
  unpack le n c bs = ([], Raise struct_error).
Proof.
  intros H. unfold unpack.
  destruct (Nat.eqb_spec (length bs) (n * calcsize c)); [contradiction|].
  reflexivity.
Qed.

Lemma little_endian_sum_le_uint (i : nat) (bs : bytes) :
  little_endian_sum i bs = (256 ^ Z.of_nat i * le_uint bs)%Z.
Proof.
  revert i; induction bs as [|b r IH]; intros i;
    cbn [little_endian_sum le_uint]; [lia|].
  rewrite IH, Nat2Z.inj_succ, Z.pow_succ_r by lia. lia.
Qed.

Lemma big_endian_digits_le_uint (acc : Z) (bs : bytes) :
  big_endian_digits acc bs
  = (acc * 256 ^ Z.of_nat (length bs) + le_uint (rev bs))%Z.
Proof.
  revert acc; induction bs as [|b r IH]; intros acc;
    cbn [big_endian_digits rev length].
  - cbn [le_uint]. change (256 ^ Z.of_nat 0)%Z with 1%Z. lia.
  - rewrite IH, le_uint_app, length_rev, Nat2Z.inj_succ,
      Z.pow_succ_r by lia.
    cbn [le_uint]. lia.
Qed.

(** The positional reading is what the unpacking computes. *)
Lemma stream_uint_uint_of (le : bool) (w : bytes) :
  stream_uint le w = uint_of le w.
Proof.
  destruct le; cbn [stream_uint uint_of].
  - rewrite little_endian_sum_le_uint.
    change (256 ^ Z.of_nat 0)%Z with 1%Z. lia.
  - rewrite big_endian_digits_le_uint. lia.
Qed.

Lemma twos_complement_to_signed (bits u : Z) :
  (0 < bits)%Z -> (0 <= u < 2 ^ bits)%Z ->
  twos_complement bits u = to_signed bits u.
Proof.
  intros Hb Hu. unfold twos_complement, to_signed.
  assert (E : (2 ^ bits = 2 * 2 ^ (bits - 1))%Z).
  { rewrite <- Z.pow_succ_r by lia. f_equal. lia. }
  destruct (Z.ltb_spec u (2 ^ (bits - 1))) as [H|H].
  - rewrite Z.mod_small by lia. lia.
  - assert (Hm : ((u + 2 ^ (bits - 1)) mod 2 ^ bits
                  = u - 2 ^ (bits - 1))%Z)
      by (symmetry; apply (Z.mod_unique _ _ 1); lia).
    rewrite Hm. lia.
Qed.

Lemma uint_of_width_range (le : bool) (c : struct_code) (w : bytes) :
  length w = calcsize c ->
  (0 <= uint_of le w < 2 ^ (8 * Z.of_nat (calcsize c)))%Z.
Proof.
  intros H. pose proof (uint_of_range le w) as R. rewrite H in R.
  replace (2 ^ (8 * Z.of_nat (calcsize c)))%Z
    with (256 ^ Z.of_nat (calcsize c))%Z; [exact R|].
  change 256%Z with (2 ^ 8)%Z. rewrite <- Z.pow_mul_r by lia. reflexivity.
Qed.

Lemma stream_value_unpack_one (le : bool) (c : struct_code) (w : bytes) :
  length w = calcsize c -> stream_value le c w = unpack_one le c w.
Proof.
  intros H. pose proof (uint_of_width_range le c w H) as R.
  unfold stream_value, unpack_one. rewrite stream_uint_uint_of.
  destruct c; cbn [calcsize] in R; try reflexivity.
  - now rewrite (twos_complement_to_signed 16) by (lia || exact R).
  - now rewrite (twos_complement_to_signed 32) by (lia || exact R).
Qed.

Lemma unpack_values_from le c n k bs :
  unpack_values le c n (skipn (k * calcsize c) bs)
  = map (fun i => unpack_one le c
                    (firstn (calcsize c) (skipn (i * calcsize c) bs)))
        (seq k n).
Proof.
  revert k; induction n as [|n IH]; intros k;
    cbn [unpack_values seq map]; [reflexivity|].
  rewrite skipn_skipn.
  replace (calcsize c + k * calcsize c) with (S k * calcsize c)
    by (cbn; lia).
  now rewrite IH.
Qed.

(** The unpacked values are the values of the windows, in order. *)
Lemma unpack_values_windows le c n bs :
  length bs = n * calcsize c ->
  unpack_values le c n bs
  = map (stream_value le c) (windows (calcsize c) n bs).
Proof.
  intros H. pose proof (calcsize_pos c) as Hc.
  change bs with (skipn (0 * calcsize c) bs) at 1.
  rewrite unpack_values_from. unfold windows. rewrite map_map.
  apply map_ext_in. intros i Hi. apply in_seq in Hi.
  symmetry. apply stream_value_unpack_one.
  rewrite length_firstn, length_skipn. nia.
Qed.

Lemma windows_length width count bs :
  length (windows width count bs) = count.
Proof. unfold windows. now rewrite length_map, length_seq. Qed.

Section NumbersAndTags.

Variable obj : Type.

(** What [convert_numbers] does with a buffer of a whole number of
    values: no warning, and the unpacked values collapsed by count. *)
Lemma convert_numbers_whole (bs : bytes) (le : bool) (c : struct_code)
      (n : nat) :
  length bs = n * calcsize c ->
  @convert_numbers obj bs le (Some c)
  = ([], Return match unpack_values le c n bs with
                | [] => VStr []
                | [v] => VNum v
                | vs => VList (map VNum vs)
                end).
Proof.
  intros H. pose proof (calcsize_pos c) as Hc.
  unfold convert_numbers.
  rewrite H, Nat.Div0.mod_mul, Nat.div_mul by lia.
  cbn [Nat.eqb negb]. rewrite (unpack_exact le n c bs H).
  cbn [ret bind app].
  destruct (unpack_values le c n bs) as [|v [|v' vs]]; reflexivity.
Qed.

(** C5: a payload of [N] times the format's width converts to the empty
    string when [N] is zero, to the bare scalar when [N] is one, and to a
    list of exactly [N] values otherwise: the values of the [N] windows
    of the payload in stream order, each read in the declared byte
    order. *)
Theorem convert_numbers_by_count (bs : bytes) (le : bool) (c : struct_code)
        (N : nat) :
  length bs = N * calcsize c ->
  (N = 0 ->
   @convert_numbers obj bs le (Some c) = ([], Return (VStr []))) /\
  (N = 1 ->
   @convert_numbers obj bs le (Some c)
   = ([], Return (VNum (stream_value le c bs)))) /\
  (1 < N ->
   @convert_numbers obj bs le (Some c)
   = ([], Return
            (VList (map VNum
                        (map (stream_value le c)
                             (windows (calcsize c) N bs)))))) /\
  length (windows (calcsize c) N bs) = N.
Proof.
  intros H. rewrite (convert_numbers_whole bs le c N H).
  rewrite (unpack_values_windows le c N bs H).
  repeat split.
  - intros ->. reflexivity.
  - intros ->. unfold windows. cbn [seq map skipn Nat.mul].
    rewrite (firstn_all2 (n := calcsize c) bs) by lia. reflexivity.
  - intros HN. pose proof (windows_length (calcsize c) N bs) as HL.
    destruct (windows (calcsize c) N bs) as [|w1 [|w2 ws]];
      cbn [length] in HL; try lia. reflexivity.
  - apply windows_length.
Qed.

(** A payload whose length is not a multiple of the value width gets the
    warning, and then [unpack] refuses the buffer. *)
Lemma convert_numbers_ragged (bs : bytes) (le : bool)
      (c : struct_code) :
  length bs mod calcsize c <> 0 ->
  @convert_numbers obj bs le (Some c)
  = ([warning_number_size], Raise struct_error).
Proof.
  intros H. pose proof (calcsize_pos c) as Hc.
  unfold convert_numbers.
  destruct (Nat.eqb_spec (length bs mod calcsize c) 0) as [E|_];
    [contradiction|].
  cbn [negb]. rewrite unpack_wrong_size.
  - reflexivity.
  - intros E. apply H. rewrite E. apply Nat.Div0.mod_mul.
Qed.

(** *** Tags *)

Lemma window_length (bs : bytes) (off : nat) :
  length (firstn 4 (skipn off bs)) = Nat.min 4 (length bs - off).
Proof. now rewrite length_firstn, length_skipn. Qed.

Lemma convert_tag_window (bs : bytes) (le : bool) (off : nat) :
  off + 4 <= length bs ->
  convert_tag bs le off
  = ([], Return (tag_of_window le (firstn 4 (skipn off bs)))).
Proof.
  intros H. unfold convert_tag, unpack_HH.
  pose proof (window_length bs off) as HL.
  replace (Nat.min 4 (length bs - off)) with 4 in HL by lia.
  rewrite HL. cbn [Nat.eqb ret bind app TupleTag fst snd].
  unfold tag_of_window, TupleTag. cbn [fst snd].
  rewrite (firstn_all2 (n := 2) (skipn 2 (firstn 4 (skipn off bs))))
    by (rewrite length_skipn; lia).
  reflexivity.
Qed.

Lemma convert_tag_short (bs : bytes) (le : bool) (off : nat) :
  length bs < off + 4 ->
  convert_tag bs le off = ([], Raise struct_error).
Proof.
  intros H. unfold convert_tag, unpack_HH.
  pose proof (window_length bs off) as HL.
  destruct (Nat.eqb_spec (length (firstn 4 (skipn off bs))) 4) as [E|_].
  - lia.
  - reflexivity.
Qed.

Lemma range_from_length start k step :
  length (range_from start k step) = k.
Proof.
  revert start; induction k as [|k IH]; intros start; cbn; [|rewrite IH];
    reflexivity.
Qed.

Lemma range_from_nth start k step i :
  i < k -> nth_error (range_from start k step) i = Some (start + i * step).
Proof.
  revert start i; induction k as [|k IH]; intros start i Hi; [lia|].
  destruct i as [|i]; cbn [range_from nth_error].
  - f_equal. lia.
  - rewrite IH by lia. f_equal. lia.
Qed.

Lemma mapM_convert_tag_whole (bs : bytes) (le : bool) (k start : nat) :
  start + 4 * k <= length bs ->
  mapM (fun x => convert_tag bs le x) (range_from start k 4)
  = ([], Return (map (fun x => tag_of_window le (firstn 4 (skipn x bs)))
                     (range_from start k 4))).
Proof.
  revert start; induction k as [|k IH]; intros start H;
    cbn [range_from mapM map].
  - reflexivity.
  - rewrite convert_tag_window by lia. cbn [bind].
    rewrite IH by lia. reflexivity.
Qed.

Lemma mapM_convert_tag_ragged (bs : bytes) (le : bool) (k start : nat) :
  start + 4 * k < length bs < start + 4 * (k + 1) ->
  mapM (fun x => convert_tag bs le x) (range_from start (S k) 4)
  = ([], Raise struct_error).
Proof.
  revert start; induction k as [|k IH]; intros start H.
  - cbn [range_from mapM]. rewrite convert_tag_short by lia. reflexivity.
  - change (range_from start (S (S k)) 4)
      with (start :: range_from (start + 4) (S k) 4).
    cbn [mapM]. rewrite convert_tag_window by lia. cbn [bind].
    rewrite IH by lia. reflexivity.
Qed.

Lemma mapM_ret {A B} (g : A -> B) (xs : list A) :
  mapM (fun x => ret (g x)) xs = ([], Return (map g xs)).
Proof.
  induction xs as [|x xs IH]; cbn [mapM map]; [reflexivity|].
  unfold ret at 1. cbn [bind]. rewrite IH. reflexivity.
Qed.

Lemma range_step_whole k : range_step (4 * k) 4 = range_from 0 k 4.
Proof.
  unfold range_step. f_equal.
  replace (4 * k + 4 - 1) with (3 + k * 4) by lia.
  rewrite Nat.div_add by lia. reflexivity.
Qed.

Lemma range_step_ragged n :
  n mod 4 <> 0 -> range_step n 4 = range_from 0 (S (n / 4)) 4.
Proof.
  intros H. unfold range_step. f_equal.
  pose proof (Nat.div_mod_eq n 4) as E.
  pose proof (Nat.mod_upper_bound n 4 ltac:(lia)) as B.
  symmetry. apply (Nat.div_unique _ _ _ (n mod 4 - 1)); lia.
Qed.

Lemma tag_of_window_stream_tag (le : bool) (w : bytes) :
  tag_of_window le w = stream_tag le w.
Proof.
  unfold tag_of_window, stream_tag. now rewrite !stream_uint_uint_of.
Qed.

Lemma range_from_seq (k : nat) :
  range_from 0 k 4 = map (fun i => i * 4) (seq 0 k).
Proof.
  assert (H : forall start,
             range_from (start * 4) k 4
             = map (fun i => i * 4) (seq start k)).
  { induction k as [|k IH]; intros start; cbn [range_from seq map];
      [reflexivity|].
    f_equal. replace (start * 4 + 4) with (S start * 4) by lia.
    apply IH. }
  exact (H 0).
Qed.

(** C6, as the code has it: four bytes give one tag; any other whole
    number [k] of 4-byte windows (none included) gives a multi-value of
    the [k] tags of the windows in stream order, without a warning; both
    16-bit fields of a tag are read in the declared byte order; a length
    that is not a multiple of 4 gets the warning and then [struct.error]
    from the short last window. *)
Theorem convert_ATvalue_by_length (bs : bytes) (le : bool) :
  (length bs = 4 ->
   @convert_ATvalue obj bs le = ([], Return (VTag (stream_tag le bs))))
  /\
  (forall k, k <> 1 -> length bs = 4 * k ->
     @convert_ATvalue obj bs le
     = ([], Return (VMultiValue
                      (map VTag (map (stream_tag le) (windows 4 k bs)))))
     /\ length (windows 4 k bs) = k)
  /\
  (length bs mod 4 <> 0 ->
   @convert_ATvalue obj bs le
   = ([warn_AT_length (length bs)], Raise struct_error)).
Proof.
  split; [|split].
  - intros H. unfold convert_ATvalue. rewrite H. cbn [Nat.eqb].
    rewrite convert_tag_window by lia. cbn [bind ret app skipn].
    rewrite firstn_all2 by lia. now rewrite tag_of_window_stream_tag.
  - intros k Hk H. split; [|apply windows_length].
    unfold convert_ATvalue. rewrite H.
    destruct (Nat.eqb_spec (4 * k) 4) as [E|_]; [lia|].
    replace ((4 * k) mod 4) with 0
      by (symmetry; rewrite Nat.mul_comm; apply Nat.Div0.mod_mul).
    cbn [Nat.eqb negb ret bind app].
    rewrite range_step_whole, mapM_convert_tag_whole by lia.
    cbn [bind app]. unfold MultiValue.
    rewrite (mapM_ret (fun t => VTag (Tag t))).
    cbn [bind ret app]. do 3 f_equal.
    unfold Tag, windows. rewrite range_from_seq, !map_map.
    apply map_ext. intros i.
    now rewrite tag_of_window_stream_tag, (Nat.mul_comm i 4).
  - intros H. unfold convert_ATvalue.
    destruct (Nat.eqb_spec (length bs) 4) as [E|_];
      [rewrite E in H; cbn in H; congruence|].
    destruct (Nat.eqb_spec (length bs mod 4) 0) as [E|_]; [contradiction|].
    cbn [negb]. rewrite range_step_ragged by exact H.
    pose proof (Nat.div_mod_eq (length bs) 4) as E.
    pose proof (Nat.mod_upper_bound (length bs) 4 ltac:(lia)) as B.
    rewrite mapM_convert_tag_ragged by lia. reflexivity.
Qed.

End NumbersAndTags.

(** *** The numeric converter and the tag converter on concrete payloads *)

(** [01 00 00 02] as two H: 1 and 512 little-endian, 256 and 2
    big-endian; [ff fe] as one big-endian h: -2; [00 00 80 3f] as one
    little-endian f: 1.0. *)
Lemma convert_numbers_by_count_witness :
  @convert_numbers unit [x01; x00; x00; x02] true (Some code_H)
  = ([], Return (VList [VNum (PyInt 1); VNum (PyInt 512)]))
  /\ @convert_numbers unit [x01; x00; x00; x02] false (Some code_H)
     = ([], Return (VList [VNum (PyInt 256); VNum (PyInt 2)]))
  /\ @convert_numbers unit [xff; xfe] false (Some code_h)
     = ([], Return (VNum (PyInt (-2))))
  /\ @convert_numbers unit [x00; x00; x80; x3f] true (Some code_f)
     = ([], Return (VNum (PyFloat (SpecFloat.S754_finite false 1 0)))).
Proof.
  split; [|split; [|split]].
  - apply (convert_numbers_by_count unit [x01; x00; x00; x02] true code_H
             2); [reflexivity | lia].
  - apply (convert_numbers_by_count unit [x01; x00; x00; x02] false
             code_H 2); [reflexivity | lia].
  - apply (convert_numbers_by_count unit [xff; xfe] false code_h 1);
      reflexivity.
  - apply (convert_numbers_by_count unit [x00; x00; x80; x3f] true code_f
             1); reflexivity.
Defined.

(** Three bytes read as 16-bit values: the length is no multiple of the
    width, and the conversion fails instead of truncating. *)
Lemma convert_numbers_ragged_payload_raises :
  length [x01; x02; x03] mod calcsize code_H <> 0
  /\ value_of (@convert_numbers unit [x01; x02; x03] true (Some code_H))
     = Raise struct_error
  /\ ~ exists v, value_of (@convert_numbers unit [x01; x02; x03] true
                                           (Some code_H)) = Return v.
Proof.
  split; [cbn; lia|]. split; [reflexivity|].
  intros [v Hv]. cbn in Hv. discriminate Hv.
Qed.

(** [10 00 20 00] little-endian is the tag (0010,0020); the 8 bytes
    [00 10 00 20 00 08 00 18] big-endian are the tags (0010,0020) and
    (0008,0018), and little-endian the tags (1000,2000) and (0800,1800);
    six bytes fail. *)
Lemma convert_ATvalue_by_length_witness :
  @convert_ATvalue unit [x10; x00; x20; x00] true
  = ([], Return (VTag (mkTag 16 32)))
  /\ @convert_ATvalue unit [x00; x10; x00; x20; x00; x08; x00; x18] false
     = ([], Return (VMultiValue [VTag (mkTag 16 32); VTag (mkTag 8 24)]))
  /\ @convert_ATvalue unit [x00; x10; x00; x20; x00; x08; x00; x18] true
     = ([], Return (VMultiValue [VTag (mkTag 4096 8192);
                                 VTag (mkTag 2048 6144)]))
  /\ @convert_ATvalue unit [x10; x00; x20; x00; x08; x00] true
     = ([warn_AT_length 6], Raise struct_error).
Proof.
  split; [|split; [|split]].
  - apply (convert_ATvalue_by_length unit [x10; x00; x20; x00] true).
    reflexivity.
  - apply (proj1 (proj2 (convert_ATvalue_by_length unit
                           [x00; x10; x00; x20; x00; x08; x00; x18]
                           false)) 2);
      [discriminate | reflexivity].
  - apply (proj1 (proj2 (convert_ATvalue_by_length unit
                           [x00; x10; x00; x20; x00; x08; x00; x18]
                           true)) 2);
      [discriminate | reflexivity].
  - apply (convert_ATvalue_by_length unit
             [x10; x00; x20; x00; x08; x00] true).
    cbn. lia.
Defined.

(** Six bytes: not a multiple of 4, and the conversion fails.  No bytes:
    not a positive multiple of 4 either, and there is no warning. *)
Lemma convert_ATvalue_six_bytes_raises :
  length [x10; x00; x20; x00; x08; x00] mod 4 <> 0
  /\ value_of (@convert_ATvalue unit [x10; x00; x20; x00; x08; x00] true)
     = Raise struct_error
  /\ @convert_ATvalue unit [] true = ([], Return (VMultiValue [])).
Proof.
  split; [cbn; lia|]. split; reflexivity.
Qed.

(* ------------------------------------------------------------------ *)
(** ** Person names *)

Lemma bytes_endswith_spec (bs : bytes) (c : byte) :
  bytes_endswith bs c = true <-> exists p, bs = p ++ [c].
Proof.
  unfold bytes_endswith. destruct (rev bs) as [|x r] eqn:E.
  - split; [discriminate|]. intros [p ->].
    rewrite rev_unit in E. discriminate E.
  - assert (Hbs : bs = rev r ++ [x]).
    { rewrite <- (rev_involutive bs), E. reflexivity. }
    split.
    + intros H. apply byte_dec_bl in H. subst x. now exists (rev r).
    + intros [p Hp]. rewrite Hp in Hbs.
      apply app_inj_tail in Hbs. destruct Hbs as [_ ->].
      now apply byte_dec_lb.
Qed.

Lemma bytes_endswith_false (bs : bytes) (c : byte) :
  bytes_endswith bs c = false -> forall p, bs <> p ++ [c].
Proof.
  intros H p Hp.
  assert (T : bytes_endswith bs c = true)
    by (apply bytes_endswith_spec; now exists p).
  congruence.
Qed.

Section PersonNames.

Variable obj : Type.
Variable env : environment obj.

Lemma MultiValue_all_built {A} (f : A -> result (PyValue obj))
      (xs : list A) (vs : list (PyValue obj)) :
  Forall2 (fun x v => f x = Ok v) xs vs ->
  MultiValue (fun x => lift (f x)) xs = ([], Return (VMultiValue vs)).
Proof.
  intros H. unfold MultiValue.
  assert (E : mapM (fun x => lift (f x)) xs = ([], Return vs)).
  { induction H as [|x v xs vs Hx _ IH]; cbn [mapM]; [reflexivity|].
    rewrite Hx, IH. reflexivity. }
  rewrite E. reflexivity.
Qed.

Lemma bytes_endswith_last (p : bytes) (c c' : byte) :
  bytes_endswith (p ++ [c]) c' = Byte.eqb c c'.
Proof. unfold bytes_endswith. now rewrite rev_unit. Qed.

(** The payload [convert_PN] splits. *)
Lemma convert_PN_stripped (bs payload : bytes) :
  (bs = payload ++ [space_byte] \/ bs = payload ++ [nul_byte]
   \/ (payload = bs
       /\ forall p, bs <> p ++ [space_byte] /\ bs <> p ++ [nul_byte])) ->
  (if negb (Nat.eqb (length bs) 0)
      && (bytes_endswith bs space_byte || bytes_endswith bs nul_byte)
   then drop_last bs else bs) = payload.
Proof.
  intros [-> | [-> | [-> H]]].
  - rewrite !bytes_endswith_last, length_app. cbn [length].
    replace (length payload + 1) with (S (length payload)) by lia.
    cbn. apply removelast_last.
  - rewrite !bytes_endswith_last, length_app. cbn [length].
    replace (length payload + 1) with (S (length payload)) by lia.
    cbn. apply removelast_last.
  - destruct (bytes_endswith bs space_byte) eqn:E1.
    { apply bytes_endswith_spec in E1. destruct E1 as [p Hp].
      now destruct (H p). }
    destruct (bytes_endswith bs nul_byte) eqn:E2.
    { apply bytes_endswith_spec in E2. destruct E2 as [p Hp].
      now destruct (H p). }
    now rewrite andb_false_r.
Qed.

End PersonNames.

(** ["A\B"] followed by a NUL: two names, in order. *)
Lemma convert_PN_two_names :
  convert_PN (sample_env false) ["A"; "\"; "B"; "000"]%byte true None
  = ([], Return (VMultiValue [VObj (person_name ["A"]%byte None);
                              VObj (person_name ["B"]%byte None)])).
Proof. reflexivity. Qed.

(* ------------------------------------------------------------------ *)
(** ** The repertoire check of the numpy path *)

Lemma re_match_star_Z_forallb (class : N -> bool) (s : pystr) :
  re_match_star_Z class s = forallb class s.
Proof.
  induction s as [|c r IH]; cbn [re_match_star_Z forallb]; [reflexivity|].
  destruct (class c); [exact IH | reflexivity].
Qed.

Lemma re_sub_star_filter (class : N -> bool) (s : pystr) :
  re_sub_star class s = filter (fun c => negb (class c)) s.
Proof.
  induction s as [|c r IH]; cbn [re_sub_star filter]; [reflexivity|].
  destruct (class c); cbn [negb]; now rewrite IH.
Qed.

Lemma forallb_ext_in {A} (f g : A -> bool) (l : list A) :
  (forall x, In x l -> f x = g x) -> forallb f l = forallb g l.
Proof.
  induction l as [|x l IH]; intros H; cbn [forallb]; [reflexivity|].
  rewrite (H x) by (left; reflexivity).
  rewrite IH; [reflexivity|]. intros y Hy. apply H. now right.
Qed.

(** The class the code matches with is the stated repertoire plus the
    space, and for IS plus the full stop. *)
Lemma regex_class_stated (VR : string) (c : N) :
  (VR = "IS" -> c <> 46%N) ->
  regex_class VR c = (stated_repertoire VR c || (c =? 32)%N).
Proof.
  intros H. unfold regex_class, stated_repertoire, IS_class, DS_class.
  destruct (String.eqb_spec VR "IS") as [E|_].
  - specialize (H E). apply N.eqb_neq in H. rewrite H.
    destruct (is_digit c), (c =? 32)%N, (c =? 92)%N, (c =? 43)%N,
      (c =? 45)%N; reflexivity.
  - destruct (is_digit c), (c =? 32)%N, (c =? 92)%N, (c =? 43)%N,
      (c =? 45)%N, (c =? 46)%N, (c =? 101)%N, (c =? 69)%N; reflexivity.
Qed.

(** The check against the stated repertoire plus the space. *)
Lemma check_repertoire_by_class (VR : string) (s : pystr) :
  (VR = "IS" -> ~ In 46%N s) ->
  let allowed := fun c => stated_repertoire VR c || (c =? 32)%N in
  (forallb allowed s = true -> check_repertoire VR s = ([], Return tt))
  /\ (forallb allowed s = false ->
      check_repertoire VR s
      = ([], Raise (ValueError
                      (repertoire_message VR
                         (filter (fun c => negb (allowed c)) s))))).
Proof.
  intros H allowed.
  assert (Hclass : forall c, In c s -> regex_class VR c = allowed c).
  { intros c Hc. apply regex_class_stated. intros E ->. now apply (H E). }
  unfold check_repertoire.
  rewrite re_match_star_Z_forallb, re_sub_star_filter.
  rewrite (forallb_ext_in _ _ s Hclass).
  rewrite (filter_ext_in (fun c => negb (regex_class VR c))
                         (fun c => negb (allowed c)) s)
    by (intros c Hc; now rewrite Hclass).
  split; intros ->; reflexivity.
Qed.

(** C8, as the code has it: the repertoire is the stated one and the
    space character.  A decoded text with a character outside it makes
    [convert_value_num_str] raise a [ValueError] whose message carries
    exactly the outside characters, in order; a text inside it goes on to
    the numpy parse.  For IS this is stated for texts without a full
    stop. *)
Theorem convert_value_num_str_repertoire (obj : Type)
        (env : environment obj) (VR : string) (raw : RawDataElement)
        (encoding : encoding_value) (s : pystr) :
  decode_num_str env raw encoding = ([], Return s) ->
  (VR = "IS" -> ~ In 46%N s) ->
  let allowed := fun c => stated_repertoire VR c || (c =? 32)%N in
  (forallb allowed s = false ->
   convert_value_num_str env VR raw encoding
   = ([], Raise (ValueError
                   (repertoire_message VR
                      (filter (fun c => negb (allowed c)) s)))))
  /\ (forallb allowed s = true ->
      convert_value_num_str env VR raw encoding
      = (value <- lift (numpy_fromstring env s
                          (if String.eqb VR "IS" then dtype_i8
                           else dtype_f8)) ;;
         match value with
         | [v] => ret (VNum v)
         | _ => ret (VArray value)
         end)).
Proof.
  intros Hdec HIS allowed.
  destruct (check_repertoire_by_class VR s HIS) as [Hin Hout].
  fold allowed in Hin, Hout.
  unfold convert_value_num_str. rewrite Hdec. cbn [bind].
  split; intros H.
  - rewrite (Hout H). reflexivity.
  - rewrite (Hin H). cbn [bind app].
    destruct (lift (numpy_fromstring env s
                      (if String.eqb VR "IS" then dtype_i8 else dtype_f8)))
      as [l [v | e | ]]; cbn [bind]; try reflexivity.
    destruct v as [|? [|? ?]]; reflexivity.
Qed.

(** ["1.5\X"] as a decimal string: the residue is ["X"]. *)
Lemma convert_value_num_str_repertoire_witness :
  convert_value_num_str (sample_env false) "DS"
    (sample_element ["1"; "."; "5"; "\"; "X"]%byte) (enc_str "iso8859")
  = ([], Raise (ValueError (repertoire_message "DS" (str_of "X")))).
Proof.
  apply (convert_value_num_str_repertoire sample_obj (sample_env false)
           "DS" (sample_element ["1"; "."; "5"; "\"; "X"]%byte)
           (enc_str "iso8859") (str_of "1.5\X")).
  - reflexivity.
  - intros E. discriminate E.
  - reflexivity.
Defined.

(** A space is outside the stated repertoire, and a text with a space
    passes the check and converts. *)
Lemma convert_value_num_str_admits_space :
  decode_num_str (sample_env false) (sample_element ["1"; " "]%byte)
                 (enc_str "iso8859")
  = ([], Return (str_of "1 "))
  /\ In 32%N (str_of "1 ")
  /\ stated_repertoire "IS" 32%N = false
  /\ stated_repertoire "DS" 32%N = false
  /\ check_repertoire "IS" (str_of "1 ") = ([], Return tt)
  /\ check_repertoire "DS" (str_of "1 ") = ([], Return tt)
  /\ convert_value_num_str (sample_env false) "IS"
       (sample_element ["1"; " "]%byte) (enc_str "iso8859")
     = ([], Return (VNum (PyInt 1))).
Proof.
  split; [reflexivity|]. split; [right; left; reflexivity|].
  repeat split.
Qed.

(** For IS the class also has the full stop, which the comment above the
    pattern leaves out of the IS repertoire. *)
Lemma check_repertoire_IS_admits_full_stop :
  stated_repertoire "IS" 46%N = false
  /\ check_repertoire "IS" (str_of "1.5") = ([], Return tt).
Proof. split; reflexivity. Qed.

(* ------------------------------------------------------------------ *)
(** ** [convert_value]: dispatch and the retry pass *)

Lemma value_of_bind_log {A} (r : log_record) (m : M A) :
  value_of (log r ;;; m) = value_of m.
Proof. destruct m as [l o]. reflexivity. Qed.

Lemma value_of_prepend {A} (l : list log_record) (m : M A) :
  value_of (let (l', o) := m in (l ++ l', o)) = value_of m.
Proof. destruct m as [l' o]. reflexivity. Qed.

(** *** One pass over the retry order *)

Section Pass.

Variable obj : Type.
Variable attempt : string -> M (PyValue obj).
Variable VR : string.
Variable raw : RawDataElement.

Lemma retry_skips_original rest :
  retry attempt VR raw (VR :: rest) = retry attempt VR raw rest.
Proof. cbn [retry]. now rewrite String.eqb_refl. Qed.

Lemma retry_after_failure vr rest l e :
  vr <> VR -> attempt vr = (l, Raise e) ->
  retry attempt VR raw (vr :: rest)
  = (l ++ fst (retry attempt VR raw rest),
     snd (retry attempt VR raw rest)).
Proof.
  intros Hne H. cbn [retry].
  apply String.eqb_neq in Hne. rewrite Hne, H.
  cbn [bind try_except ret app].
  destruct (retry attempt VR raw rest) as [l' o].
  rewrite app_nil_r. reflexivity.
Qed.

Lemma retry_at_success vr rest l v :
  vr <> VR -> attempt vr = (l, Return v) ->
  retry attempt VR raw (vr :: rest)
  = (l ++ [debug_converted (tag raw) vr], Return v).
Proof.
  intros Hne H. cbn [retry].
  apply String.eqb_neq in Hne. rewrite Hne, H.
  cbn [bind try_except ret log app]. now rewrite !app_nil_r.
Qed.

(** The pass never calls [attempt] on the original VR. *)
Lemma retry_never_attempts_original (attempt' : string -> M (PyValue obj))
      order :
  (forall vr, vr <> VR -> attempt' vr = attempt vr) ->
  retry attempt' VR raw order = retry attempt VR raw order.
Proof.
  intros H. induction order as [|vr rest IH]; cbn [retry]; [reflexivity|].
  destruct (String.eqb_spec vr VR) as [_|Hne]; [exact IH|].
  rewrite (H vr Hne), IH. reflexivity.
Qed.

Lemma retry_first_success before vr after l v :
  vr <> VR ->
  (forall x, In x before -> x <> VR ->
             exists lx ex, attempt x = (lx, Raise ex)) ->
  attempt vr = (l, Return v) ->
  value_of (retry attempt VR raw (before ++ vr :: after)) = Return v.
Proof.
  intros Hne Hfail Hok.
  induction before as [|x before IH]; cbn [app].
  - now rewrite (retry_at_success vr after l v Hne Hok).
  - destruct (String.eqb_spec x VR) as [->|Hx].
    + rewrite retry_skips_original. apply IH.
      intros y Hy. apply Hfail. now right.
    + destruct (Hfail x (or_introl eq_refl) Hx) as [lx [ex Hx']].
      rewrite (retry_after_failure x _ lx ex Hx Hx').
      apply IH. intros y Hy. apply Hfail. now right.
Qed.

Lemma retry_exhausted order :
  (forall x, In x order -> x <> VR ->
             exists lx ex, attempt x = (lx, Raise ex)) ->
  value_of (retry attempt VR raw order) = Return (VBytes (value raw))
  /\ exists l, log_of (retry attempt VR raw order)
               = l ++ [debug_could_not_convert (tag raw)].
Proof.
  intros Hfail. induction order as [|x order IH].
  - split; [reflexivity|]. now exists [].
  - assert (Hrest : forall y, In y order -> y <> VR ->
                      exists lx ex, attempt y = (lx, Raise ex))
      by (intros y Hy; apply Hfail; now right).
    destruct (IH Hrest) as [Hv [l Hl]].
    destruct (String.eqb_spec x VR) as [->|Hx].
    + rewrite retry_skips_original. split; [exact Hv | now exists l].
    + destruct (Hfail x (or_introl eq_refl) Hx) as [lx [ex Hx']].
      rewrite (retry_after_failure x _ lx ex Hx Hx').
      split; [exact Hv|]. exists (lx ++ l).
      unfold log_of in *. cbn [fst]. rewrite Hl. apply app_assoc.
Qed.

(** Whatever the attempts do, the pass does not raise. *)
Lemma retry_never_raises order e :
  value_of (retry attempt VR raw order) <> Raise e.
Proof.
  induction order as [|x order IH]; [discriminate|].
  cbn [retry]. destruct (String.eqb x VR); [exact IH|].
  destruct (attempt x) as [l [v | e' | ]];
    cbn [bind try_except ret log app]; try discriminate.
  destruct (retry attempt VR raw order) as [l' o'].
  exact IH.
Qed.

End Pass.

Lemma try_except_ext {A} (m : M A) (catches : exn -> bool)
      (h1 h2 : exn -> M A) :
  (forall e, h1 e = h2 e) ->
  try_except m catches h1 = try_except m catches h2.
Proof.
  intros H. destruct m as [l [a | e | ]]; cbn [try_except]; try reflexivity.
  now rewrite H.
Qed.

Section Retry.

Variable obj : Type.
Variable env : environment obj.
Variable registry : list (string * registered).
Variable retry_order : list string.

Local Abbreviation convert_value' :=
  (convert_value env registry retry_order).

(** The encoding only counts through its three-element form, so the
    recursive call, which passes that form on, is the call a caller would
    make with the encoding as given. *)
Lemma convert_value_encoding d VR raw encoding :
  convert_value' d VR raw (enc_list (three_element_format encoding))
  = convert_value' d VR raw encoding.
Proof. destruct d; reflexivity. Qed.

Lemma convert_value_known d VR entry raw encoding :
  lookup VR registry = Some entry ->
  convert_value' (S d) VR raw encoding
  = try_except
      (primary_conversion env VR entry raw (three_element_format encoding))
      isinstance_ValueError
      (fun e =>
         if enforce_valid_values env then raise e
         else
           log (debug_unable_to_translate (tag raw) VR) ;;;
           retry (fun vr => convert_value' d vr raw encoding)
                 VR raw retry_order).
Proof.
  intros H. cbn [convert_value]. rewrite H.
  apply try_except_ext. intros e.
  destruct (enforce_valid_values env); [reflexivity|].
  rewrite (retry_never_attempts_original obj
             (fun vr => convert_value' d vr raw encoding) VR raw
             (fun vr => convert_value' d vr raw
                          (enc_list (three_element_format encoding)))
             retry_order)
    by (intros vr _; apply convert_value_encoding).
  reflexivity.
Qed.


(** C1: in lenient mode, when the primary conversion raises a
    [ValueError], the retry order is walked with the original VR left
    out, and the value returned is that of the first alternate VR whose
    own [convert_value] call returns: the value a direct call with that
    VR, the same element and the same encoding gives. *)
Theorem convert_value_first_alternate (d : nat) (VR : string)
        (entry : registered) (raw : RawDataElement)
        (encoding : encoding_value) (l0 : list log_record) (e : exn)
        (before after : list string) (vr : string)
        (lv : list log_record) (v : PyValue obj) :
  lookup VR registry = Some entry ->
  enforce_valid_values env = false ->
  primary_conversion env VR entry raw (three_element_format encoding)
  = (l0, Raise e) ->
  isinstance_ValueError e = true ->
  retry_order = before ++ vr :: after ->
  vr <> VR ->
  (forall x, In x before -> x <> VR ->
     exists lx ex, convert_value' d x raw encoding = (lx, Raise ex)) ->
  convert_value' d vr raw encoding = (lv, Return v) ->
  value_of (convert_value' (S d) VR raw encoding) = Return v.
Proof.
  intros Hreg Hlenient Hprim He Horder Hne Hfail Hok.
  rewrite (convert_value_known d VR entry raw encoding Hreg).
  rewrite Hprim. cbn [try_except]. rewrite He, Hlenient.
  rewrite value_of_prepend, value_of_bind_log.
  pose proof (retry_first_success obj
                (fun vr => convert_value' d vr raw encoding)
                VR raw before vr after lv v Hne Hfail Hok) as H.
  rewrite <- Horder in H. exact H.
Qed.

(** C2: in lenient mode, when the primary conversion raises a
    [ValueError] and every alternate VR of the retry order fails too,
    [convert_value] returns the element's raw bytes as they are, and does
    not raise. *)
Theorem convert_value_falls_back_to_raw (d : nat) (VR : string)
        (entry : registered) (raw : RawDataElement)
        (encoding : encoding_value) (l0 : list log_record) (e : exn) :
  lookup VR registry = Some entry ->
  enforce_valid_values env = false ->
  primary_conversion env VR entry raw (three_element_format encoding)
  = (l0, Raise e) ->
  isinstance_ValueError e = true ->
  (forall x, In x retry_order -> x <> VR ->
     exists lx ex, convert_value' d x raw encoding = (lx, Raise ex)) ->
  value_of (convert_value' (S d) VR raw encoding)
  = Return (VBytes (value raw)).
Proof.
  intros Hreg Hlenient Hprim He Hfail.
  rewrite (convert_value_known d VR entry raw encoding Hreg).
  rewrite Hprim. cbn [try_except]. rewrite He, Hlenient.
  rewrite value_of_prepend, value_of_bind_log.
  exact (proj1 (retry_exhausted obj
                  (fun vr => convert_value' d vr raw encoding)
                  VR raw retry_order Hfail)).
Qed.

Lemma convert_value_passes_primary (d : nat) (VR : string)
      (entry : registered) (raw : RawDataElement)
      (encoding : encoding_value) (primary : M (PyValue obj)) :
  lookup VR registry = Some entry ->
  primary_conversion env VR entry raw (three_element_format encoding)
  = primary ->
  (forall l e, primary = (l, Raise e) -> isinstance_ValueError e = false) ->
  convert_value' (S d) VR raw encoding = primary.
Proof.
  intros Hreg Hprim Hno.
  rewrite (convert_value_known d VR entry raw encoding Hreg), Hprim.
  destruct primary as [l [v | e | ]]; cbn [try_except]; try reflexivity.
  now rewrite (Hno l e eq_refl).
Qed.

(** C10, as the code has it: whatever the primary conversion does other
    than raise an instance of [ValueError] (a [ValueError] or one of its
    subclasses, such as [UnicodeDecodeError]) is what [convert_value]
    does, strict or lenient: a value is returned as it is, any other
    exception propagates unchanged, and there is no retry. *)
Theorem convert_value_propagates (d : nat) (VR : string)
        (entry : registered) (raw : RawDataElement)
        (encoding : encoding_value) (primary : M (PyValue obj)) :
  lookup VR registry = Some entry ->
  primary_conversion env VR entry raw (three_element_format encoding)
  = primary ->
  (forall l e, primary = (l, Raise e) -> isinstance_ValueError e = false) ->
  convert_value' (S d) VR raw encoding = primary.
Proof. apply convert_value_passes_primary. Qed.

(** A call with an unregistered VR: nothing is converted, nothing is
    logged, whatever the environment. *)
Lemma convert_value_unregistered d VR raw encoding :
  lookup VR registry = None ->
  convert_value' (S d) VR raw encoding
  = ([], Raise (NotImplementedError (unknown_VR_message VR))).
Proof. intros H. cbn [convert_value]. now rewrite H. Qed.

(** *** Depth *)

Lemma retry_stable (f g : string -> M (PyValue obj)) VR raw order :
  (forall x, value_of (f x) <> Diverge -> g x = f x) ->
  value_of (retry f VR raw order) <> Diverge ->
  retry g VR raw order = retry f VR raw order.
Proof.
  intros H. induction order as [|x order IH]; [reflexivity|].
  cbn [retry]. destruct (String.eqb x VR); [exact IH|].
  destruct (f x) as [l [v | e | ]] eqn:E.
  - intros _. rewrite (H x) by (rewrite E; discriminate). now rewrite E.
  - rewrite (H x) by (rewrite E; discriminate). rewrite E.
    cbn [bind try_except ret app].
    destruct (retry f VR raw order) as [l' o'] eqn:E'.
    intros Hnd. rewrite IH by exact Hnd. reflexivity.
  - intros Hd. exfalso. apply Hd. reflexivity.
Qed.

(** A call that ends within depth [d] is the same call at any greater
    depth. *)
Lemma convert_value_stable d VR raw encoding :
  value_of (convert_value' d VR raw encoding) <> Diverge ->
  convert_value' (S d) VR raw encoding = convert_value' d VR raw encoding.
Proof.
  revert VR raw encoding. induction d as [|d IH]; intros VR raw encoding.
  - intros H. exfalso. apply H. reflexivity.
  - destruct (lookup VR registry) as [entry|] eqn:Hreg.
    + rewrite (convert_value_known (S d) VR entry raw encoding Hreg),
        (convert_value_known d VR entry raw encoding Hreg).
      destruct (primary_conversion env VR entry raw
                  (three_element_format encoding)) as [l [v | e | ]];
        cbn [try_except]; try reflexivity.
      destruct (isinstance_ValueError e); [|reflexivity].
      destruct (enforce_valid_values env); [reflexivity|].
      rewrite value_of_prepend, value_of_bind_log. intros Hnd.
      rewrite (retry_stable
                 (fun vr => convert_value' d vr raw encoding)
                 (fun vr => convert_value' (S d) vr raw encoding)
                 VR raw retry_order); [reflexivity | | exact Hnd].
      intros x Hx. now apply IH.
    + intros _. now rewrite !convert_value_unregistered.
Qed.

Lemma convert_value_deeper d d' VR raw encoding :
  d <= d' ->
  value_of (convert_value' d VR raw encoding) <> Diverge ->
  convert_value' d' VR raw encoding = convert_value' d VR raw encoding.
Proof.
  intros Hle H. induction Hle as [|d' Hle IH]; [reflexivity|].
  rewrite convert_value_stable; [exact IH|]. now rewrite IH.
Qed.

End Retry.

(* ------------------------------------------------------------------ *)
(** ** What the converters can raise *)

Section Outcomes.

Variable obj : Type.
Variable env : environment obj.
Variable P : exn -> Prop.
Hypothesis P_TypeError : P TypeError.
Hypothesis P_IndexError : P IndexError.
Hypothesis P_struct_error : P struct_error.
Hypothesis P_env : collaborators_raise P env.

Lemma outcome_in_bind {A B} (m : M A) (k : A -> M B) :
  outcome_in P m -> (forall a, outcome_in P (k a)) ->
  outcome_in P (bind m k).
Proof.
  unfold outcome_in, value_of. destruct m as [l [a | e | ]]; cbn [bind snd].
  - intros _ H. specialize (H a). now destruct (k a).
  - intros H _. exact H.
  - intros [].
Qed.

Lemma outcome_in_lift {A} (r : result A) :
  result_in P r -> outcome_in P (lift r).
Proof. destruct r; intros H; exact H. Qed.

Lemma outcome_in_mapM {A B} (f : A -> M B) (xs : list A) :
  (forall x, outcome_in P (f x)) -> outcome_in P (mapM f xs).
Proof.
  intros H. induction xs as [|x xs IH]; cbn [mapM]; [exact I|].
  apply outcome_in_bind; [apply H|]. intros y.
  apply outcome_in_bind; [exact IH|]. intros ys. exact I.
Qed.

Lemma outcome_in_MultiValue {A} (f : A -> M (PyValue obj)) (xs : list A) :
  (forall x, outcome_in P (f x)) -> outcome_in P (MultiValue f xs).
Proof.
  intros H. unfold MultiValue.
  apply outcome_in_bind; [now apply outcome_in_mapM|]. intros l. exact I.
Qed.

Lemma outcome_in_decode (b : bytes) (encoding : encoding_value) :
  outcome_in P (decode obj env b encoding).
Proof.
  destruct encoding; cbn [decode].
  - apply outcome_in_lift, P_env.
  - exact P_TypeError.
Qed.

Ltac outcome_step :=
  match goal with
  | |- outcome_in _ (ret _) => exact I
  | |- outcome_in _ (log _) => exact I
  | |- outcome_in _ (raise TypeError) => exact P_TypeError
  | |- outcome_in _ (raise IndexError) => exact P_IndexError
  | |- outcome_in _ (raise struct_error) => exact P_struct_error
  | |- outcome_in _ (decode _ _ _ _) => apply outcome_in_decode
  | |- outcome_in _ (lift _) => apply outcome_in_lift, P_env
  | |- outcome_in _ (bind _ _) => apply outcome_in_bind; [|intros ?]
  | |- outcome_in _ (mapM _ _) => apply outcome_in_mapM; intros ?
  | |- outcome_in _ (MultiValue _ _) => apply outcome_in_MultiValue; intros ?
  | |- outcome_in _ (if ?b then _ else _) => destruct b
  | |- outcome_in _ (match ?x with _ => _ end) => destruct x
  | |- outcome_in _ (let (_, _) := ?x in _) => destruct x
  end.

Ltac outcome := repeat outcome_step.

Lemma outcome_in_convert_numbers b le fmt :
  outcome_in P (@convert_numbers obj b le fmt).
Proof. unfold convert_numbers, unpack. outcome. Qed.

Lemma outcome_in_convert_tag b le off :
  outcome_in P (convert_tag b le off).
Proof. unfold convert_tag, unpack_HH. outcome. Qed.

Lemma outcome_in_convert_ATvalue b le :
  outcome_in P (@convert_ATvalue obj b le).
Proof.
  unfold convert_ATvalue. outcome; try apply outcome_in_convert_tag.
Qed.

Lemma outcome_in_convert_string b le encoding :
  outcome_in P (convert_string obj env b le encoding).
Proof. unfold convert_string. outcome. Qed.

Lemma outcome_in_date_time b le :
  outcome_in P (convert_DA_string obj env b le)
  /\ outcome_in P (convert_DT_string obj env b le)
  /\ outcome_in P (convert_TM_string obj env b le).
Proof.
  unfold convert_DA_string, convert_DT_string, convert_TM_string,
    _DA_from_byte_string, _DT_from_byte_string, _TM_from_byte_string.
  repeat split; outcome; apply outcome_in_convert_string.
Qed.

Lemma outcome_in_convert_PN b le encoding :
  outcome_in P (convert_PN env b le encoding).
Proof. unfold convert_PN. outcome. Qed.

Lemma outcome_in_call f b le a : outcome_in P (call env f b le a).
Proof.
  destruct (outcome_in_date_time b le) as [HDA [HDT HTM]].
  destruct f, a; cbn [call];
    try exact P_TypeError;
    try apply outcome_in_convert_numbers;
    try apply outcome_in_convert_string;
    try apply outcome_in_convert_PN;
    try apply outcome_in_convert_ATvalue;
    try assumption;
    try exact I;
    unfold convert_UI, convert_IS_string, convert_DS_string,
      convert_AE_string, convert_single_string, convert_SQ,
      convert_UR_string;
    outcome.
Qed.

Lemma outcome_in_primary_conversion VR entry raw encoding :
  outcome_in P (primary_conversion env VR entry raw encoding).
Proof.
  unfold primary_conversion, encoding_item1, convert_SQ.
  destruct entry; outcome; apply outcome_in_call.
Qed.

End Outcomes.

(* ------------------------------------------------------------------ *)
(** ** Unregistered VRs *)

Lemma not_NotImplementedError_basic :
  ~ is_NotImplementedError TypeError
  /\ ~ is_NotImplementedError IndexError
  /\ ~ is_NotImplementedError struct_error.
Proof. repeat split; intros [m H]; discriminate H. Qed.

(** C3: [convert_value] raises the unknown-VR [NotImplementedError]
    exactly when the VR is not a key of the registry (the collaborators
    raising no [NotImplementedError] of their own).  For such a VR that
    error is the whole effect of the call, strict or lenient: nothing is
    converted or logged before it and no retry is made. *)
Theorem convert_value_unknown_VR (obj : Type) (env : environment obj)
        (registry : list (string * registered)) (retry_order : list string)
        (d : nat) (VR : string) (raw : RawDataElement)
        (encoding : encoding_value) :
  collaborators_raise (fun e => ~ is_NotImplementedError e) env ->
  ((exists message,
       value_of (convert_value env registry retry_order (S d) VR raw
                               encoding)
       = Raise (NotImplementedError message))
   <-> lookup VR registry = None)
  /\ (lookup VR registry = None ->
      convert_value env registry retry_order (S d) VR raw encoding
      = ([], Raise (NotImplementedError (unknown_VR_message VR)))).
Proof.
  intros Henv.
  destruct not_NotImplementedError_basic as [HT [HI HS]].
  split; [split|].
  - intros [message H].
    destruct (lookup VR registry) as [entry|] eqn:Hreg; [|reflexivity].
    exfalso.
    rewrite (convert_value_known obj env registry retry_order d VR entry
               raw encoding Hreg) in H.
    pose proof (outcome_in_primary_conversion obj env _ HT HI HS Henv
                  VR entry raw (three_element_format encoding)) as Hp.
    unfold outcome_in, value_of in Hp.
    destruct (primary_conversion env VR entry raw
                (three_element_format encoding)) as [l [v | e | ]];
      cbn [try_except snd] in H, Hp.
    + discriminate H.
    + destruct (isinstance_ValueError e) eqn:He.
      * destruct (enforce_valid_values env).
        -- cbn in H. injection H as ->. discriminate He.
        -- rewrite value_of_prepend, value_of_bind_log in H.
           now apply retry_never_raises in H.
      * cbn in H. injection H as ->. apply Hp. now exists message.
    + exact Hp.
  - intros Hreg. exists (unknown_VR_message VR).
    now rewrite convert_value_unregistered.
  - apply convert_value_unregistered.
Qed.

(* ------------------------------------------------------------------ *)
(** ** The registry and the retry order as shipped *)

Section Shipped.

Variable obj : Type.
Variable env : environment obj.
Hypothesis OB_not_text : in_list "OB" (text_VRs env) = false.

Local Abbreviation shipped :=
  (convert_value env converters convert_retry_VR_order).

Lemma everything_is_raised : collaborators_raise (fun _ => True) env.
Proof.
  split; intros; match goal with |- result_in _ ?r => now destruct r end.
Qed.

Lemma primary_conversion_ends VR entry raw encoding :
  value_of (primary_conversion env VR entry raw encoding) <> Diverge.
Proof.
  pose proof (outcome_in_primary_conversion obj env (fun _ => True)
                I I I everything_is_raised VR entry raw encoding) as H.
  unfold outcome_in in H. intros E. now rewrite E in H.
Qed.

(** A numeric VR never raises a [ValueError], so its conversion makes no
    recursive call. *)
Lemma numeric_VR_ends d x raw encoding :
  In x numeric_VRs -> value_of (shipped (S d) x raw encoding) <> Diverge.
Proof.
  intros Hx.
  assert (Hentry : exists c, lookup x converters
                             = Some (tuple fn_convert_numbers c)
                             /\ String.eqb x "PN" = false
                             /\ String.eqb x "SQ" = false).
  { cbn in Hx.
    repeat (destruct Hx as [<- | Hx];
            [eexists; repeat split; reflexivity|]).
    contradiction. }
  destruct Hentry as [c [Hreg [HPN HSQ]]].
  rewrite (convert_value_passes_primary obj env converters
             convert_retry_VR_order d x _ raw encoding _ Hreg eq_refl).
  - apply primary_conversion_ends.
  - intros l e H.
    assert (Hp : outcome_in (fun e => isinstance_ValueError e = false)
                   (primary_conversion env x (tuple fn_convert_numbers c)
                      raw (three_element_format encoding))).
    { unfold primary_conversion. rewrite HPN, HSQ.
      destruct (in_list x (text_VRs env)).
      - apply outcome_in_bind.
        + unfold encoding_item1.
          destruct (nth_error (three_element_format encoding) 1);
            [exact I | reflexivity].
        + intros a. reflexivity.
      - cbn [negb call].
        now apply outcome_in_convert_numbers. }
    unfold outcome_in in Hp. now rewrite H in Hp.
Qed.

Lemma OB_returns d raw encoding :
  shipped (S d) "OB" raw encoding = ([], Return (VBytes (value raw))).
Proof.
  rewrite (convert_value_passes_primary obj env converters
             convert_retry_VR_order d "OB" (function fn_convert_OBvalue)
             raw encoding ([], Return (VBytes (value raw))));
    try reflexivity.
  - unfold primary_conversion. cbn [String.eqb Ascii.eqb Bool.eqb].
    rewrite OB_not_text. reflexivity.
  - intros l e H. discriminate H.
Qed.

(** A pass that meets a returning alternate returns that alternate's
    value or an earlier one's; the raw-bytes fallback is not reached. *)
Lemma retry_returns_alternate (attempt : string -> M (PyValue obj))
      VR raw before vr after l v :
  vr <> VR ->
  (forall x, In x before -> x <> VR -> value_of (attempt x) <> Diverge) ->
  attempt vr = (l, Return v) ->
  exists x lx vx,
    In x (before ++ [vr]) /\ x <> VR /\ attempt x = (lx, Return vx)
    /\ value_of (retry attempt VR raw (before ++ vr :: after)) = Return vx.
Proof.
  intros Hne Hend Hok. induction before as [|y before IH]; cbn [app].
  - exists vr, l, v. repeat split; [now left | exact Hne | exact Hok |].
    now rewrite (retry_at_success obj attempt VR raw vr after l v Hne Hok).
  - assert (Hrest : forall x, In x before -> x <> VR ->
                      value_of (attempt x) <> Diverge)
      by (intros x Hx; apply Hend; now right).
    destruct (IH Hrest) as [x [lx [vx [Hin [Hx [Hax Hv]]]]]].
    destruct (String.eqb_spec y VR) as [->|Hy].
    + rewrite retry_skips_original.
      exists x, lx, vx. repeat split; try assumption. now right.
    + destruct (attempt y) as [ly [vy | ey | ]] eqn:Ey.
      * exists y, ly, vy. repeat split; [now left | exact Hy | exact Ey |].
        now rewrite (retry_at_success obj attempt VR raw y _ ly vy Hy Ey).
      * rewrite (retry_after_failure obj attempt VR raw y _ ly ey Hy Ey).
        exists x, lx, vx. repeat split; try assumption. now right.
      * exfalso. apply (Hend y (or_introl eq_refl) Hy).
        now rewrite Ey.
Qed.

(** With the shipped tables a retry pass ends at OB at the latest. *)
Lemma shipped_retry_returns d VR raw encoding :
  VR <> "OB" ->
  (forall x, In x ("SH" :: numeric_VRs) -> x <> VR ->
             value_of (shipped (S d) x raw encoding) <> Diverge) ->
  exists x lx vx,
    In x convert_retry_VR_order /\ x <> VR
    /\ shipped (S d) x raw encoding = (lx, Return vx)
    /\ value_of (retry (fun vr => shipped (S d) vr raw encoding) VR raw
                       convert_retry_VR_order) = Return vx.
Proof.
  intros HVR Hend.
  destruct (retry_returns_alternate
              (fun vr => shipped (S d) vr raw encoding) VR raw
              ("SH" :: numeric_VRs) "OB"
              ["UI"; "DA"; "TM"; "PN"; "IS"; "DS"; "LT"; "SQ"; "UN"; "AT";
               "OW"; "DT"; "UT"] [] (VBytes (value raw)))
    as [x [lx [vx [Hin [Hx [Hax Hv]]]]]].
  - congruence.
  - exact Hend.
  - apply OB_returns.
  - exists x, lx, vx. split; [|split; [exact Hx | split; [exact Hax |]]].
    + apply in_app_or in Hin.
      change convert_retry_VR_order
        with (("SH" :: numeric_VRs) ++ "OB"
                :: ["UI"; "DA"; "TM"; "PN"; "IS"; "DS"; "LT"; "SQ"; "UN";
                    "AT"; "OW"; "DT"; "UT"]).
      apply in_or_app. destruct Hin as [Hin | [<- | []]].
      * now left.
      * right. now left.
    + exact Hv.
Qed.

Lemma shipped_ends_from (d : nat) VR raw encoding :
  (forall x, In x ("SH" :: numeric_VRs) -> x <> VR ->
             value_of (shipped (S d) x raw encoding) <> Diverge) ->
  value_of (shipped (S (S d)) VR raw encoding) <> Diverge.
Proof.
  intros Hend.
  destruct (String.eqb_spec VR "OB") as [->|HVR];
    [now rewrite OB_returns|].
  destruct (lookup VR converters) as [entry|] eqn:Hreg.
  - rewrite (convert_value_known obj env converters convert_retry_VR_order
               (S d) VR entry raw encoding Hreg).
    pose proof (primary_conversion_ends VR entry raw
                  (three_element_format encoding)) as Hp.
    destruct (primary_conversion env VR entry raw
                (three_element_format encoding)) as [l [v | e | ]];
      cbn [try_except]; try discriminate.
    + destruct (isinstance_ValueError e); [|discriminate].
      destruct (enforce_valid_values env); [discriminate|].
      rewrite value_of_prepend, value_of_bind_log.
      destruct (shipped_retry_returns d VR raw encoding HVR Hend)
        as [x [lx [vx [_ [_ [_ ->]]]]]].
      discriminate.
    + exact Hp.
  - now rewrite convert_value_unregistered.
Qed.

Lemma SH_ends d raw encoding :
  value_of (shipped (S (S d)) "SH" raw encoding) <> Diverge.
Proof.
  apply shipped_ends_from.
  intros x [<- | Hx] Hne; [congruence|]. now apply numeric_VR_ends.
Qed.

(** With the shipped tables every call ends within depth 3. *)
Lemma shipped_convert_value_ends d VR raw encoding :
  value_of (shipped (3 + d) VR raw encoding) <> Diverge.
Proof.
  apply shipped_ends_from.
  intros x [<- | Hx] Hne.
  - apply SH_ends.
  - now apply numeric_VR_ends.
Qed.


End Shipped.

(* ------------------------------------------------------------------ *)
(** ** [convert_value] on the reference environment *)

Lemma sample_env_collaborators (strict : bool) :
  collaborators_raise (fun e => ~ is_NotImplementedError e)
                      (sample_env strict).
Proof.
  split; cbn; intros; try exact I.
  - unfold sample_decode.
    repeat match goal with
           | |- result_in _ (if ?b then _ else _) => destruct b
           end; cbn; try exact I; intros [m H]; discriminate H.
  - unfold sample_MultiString.
    match goal with
    | |- result_in _ (match ?x with _ => _ end) =>
        destruct x as [|? [|? ?]]
    end; exact I.
Qed.

(** [b"\xff\x00"] read as SH with the ascii codec, lenient: decoding
    fails, SH itself is left out, UL and SL fail on the size, US
    converts. *)
Lemma convert_value_first_alternate_witness :
  value_of (convert_value (sample_env false) converters
              convert_retry_VR_order 3 "SH" (sample_element [xff; x00])
              (enc_str "ascii"))
  = Return (VNum (PyInt 255)).
Proof.
  apply (convert_value_first_alternate sample_obj (sample_env false)
           converters convert_retry_VR_order 2 "SH"
           (function fn_convert_string) (sample_element [xff; x00])
           (enc_str "ascii") [] UnicodeDecodeError
           ["SH"; "UL"; "SL"] ["SS"; "FL"; "FD"; "OF"; "OB"; "UI"; "DA";
                               "TM"; "PN"; "IS"; "DS"; "LT"; "SQ"; "UN";
                               "AT"; "OW"; "DT"; "UT"]
           "US" [] (VNum (PyInt 255))); try reflexivity.
  - discriminate.
  - intros x [<- | [<- | [<- | []]]] Hne.
    + congruence.
    + eexists. eexists. reflexivity.
    + eexists. eexists. reflexivity.
Defined.

(** The same read with a retry order of UL and FD only: both fail on the
    one-byte payload and the raw byte comes back. *)
Lemma convert_value_falls_back_to_raw_witness :
  value_of (convert_value (sample_env false) converters ["UL"; "FD"] 3
              "SH" (sample_element [xff]) (enc_str "ascii"))
  = Return (VBytes [xff]).
Proof.
  apply (convert_value_falls_back_to_raw sample_obj (sample_env false)
           converters ["UL"; "FD"] 2 "SH" (function fn_convert_string)
           (sample_element [xff]) (enc_str "ascii") []
           UnicodeDecodeError); try reflexivity.
  intros x [<- | [<- | []]] Hne; eexists; eexists; reflexivity.
Defined.

(** One byte read as US, lenient: [struct.error] comes out as it is. *)
Lemma convert_value_propagates_witness :
  convert_value (sample_env false) converters convert_retry_VR_order 3
                "US" (sample_element [xff]) (enc_str "iso8859")
  = ([warning_number_size], Raise struct_error).
Proof.
  apply (convert_value_propagates sample_obj (sample_env false)
           converters convert_retry_VR_order 2 "US"
           (tuple fn_convert_numbers code_H) (sample_element [xff])
           (enc_str "iso8859")); try reflexivity.
  intros l e H. injection H as _ <-. reflexivity.
Defined.

(** A decoding error is not a [ValueError] by name, but it is one by
    class: in lenient mode it does not come out of [convert_value], the
    retry pass runs and OB returns the bytes. *)
Lemma decoding_error_is_retried :
  primary_conversion (sample_env false) "SH" (function fn_convert_string)
                     (sample_element [xff]) ["ascii"; "ascii"; "ascii"]
  = ([], Raise UnicodeDecodeError)
  /\ (forall message, UnicodeDecodeError <> ValueError message)
  /\ enforce_valid_values (sample_env false) = false
  /\ value_of (convert_value (sample_env false) converters
                 convert_retry_VR_order 3 "SH" (sample_element [xff])
                 (enc_str "ascii"))
     = Return (VBytes [xff])
  /\ value_of (convert_value (sample_env false) converters
                 convert_retry_VR_order 3 "SH" (sample_element [xff])
                 (enc_str "ascii"))
     <> Raise UnicodeDecodeError.
Proof.
  split; [reflexivity|]. split; [discriminate|]. split; [reflexivity|].
  split; [reflexivity|]. discriminate.
Qed.

(** ["XX"] is no key of the shipped registry. *)
Lemma convert_value_unknown_VR_witness :
  ((exists message,
       value_of (convert_value (sample_env true) converters
                   convert_retry_VR_order 1 "XX" (sample_element [xff])
                   (enc_str "iso8859"))
       = Raise (NotImplementedError message))
   <-> lookup "XX" converters = None)
  /\ (lookup "XX" converters = None ->
      convert_value (sample_env true) converters convert_retry_VR_order 1
                    "XX" (sample_element [xff]) (enc_str "iso8859")
      = ([], Raise (NotImplementedError (unknown_VR_message "XX")))).
Proof.
  apply (convert_value_unknown_VR sample_obj (sample_env true) converters
           convert_retry_VR_order 0 "XX" (sample_element [xff])
           (enc_str "iso8859")).
  apply sample_env_collaborators.
Defined.

(** Every VR of the shipped retry order is a key of the shipped
    registry. *)
Lemma retry_order_registered :
  forallb (fun vr => match lookup vr converters with
                     | Some _ => true
                     | None => false
                     end) convert_retry_VR_order = true.
Proof. reflexivity. Qed.

(* ------------------------------------------------------------------ *)
(** ** Further properties of [convert_value] *)

Section Dispatch.

Variable obj : Type.
Variable env : environment obj.
Variable registry : list (string * registered).
Variable retry_order : list string.

Local Abbreviation convert_value' :=
  (convert_value env registry retry_order).

(** X1: an exception that comes out of [convert_value] for a registered
    VR is the one the primary conversion raised; nothing an alternate VR
    raises gets out.  In lenient mode it is never an instance of
    [ValueError]. *)
Theorem convert_value_raises_only_primary (d : nat) (VR : string)
        (entry : registered) (raw : RawDataElement)
        (encoding : encoding_value) (e : exn) :
  lookup VR registry = Some entry ->
  value_of (convert_value' (S d) VR raw encoding) = Raise e ->
  value_of (primary_conversion env VR entry raw
              (three_element_format encoding)) = Raise e
  /\ (enforce_valid_values env = false ->
      isinstance_ValueError e = false).
Proof.
  intros Hreg H.
  rewrite (convert_value_known obj env registry retry_order d VR entry raw
             encoding Hreg) in H.
  destruct (primary_conversion env VR entry raw
              (three_element_format encoding)) as [l [v | e' | ]];
    cbn [try_except] in H; try discriminate H.
  destruct (isinstance_ValueError e') eqn:He.
  - destruct (enforce_valid_values env).
    + cbn in H. injection H as ->. split; [reflexivity | discriminate].
    + rewrite value_of_prepend, value_of_bind_log in H.
      now apply retry_never_raises in H.
  - cbn in H. injection H as ->. split; [reflexivity | now intros _].
Qed.

(** X2: in strict mode [convert_value] is the primary conversion, value
    or exception and log alike: nothing is retried and nothing more is
    logged. *)
Theorem convert_value_strict (d : nat) (VR : string) (entry : registered)
        (raw : RawDataElement) (encoding : encoding_value) :
  lookup VR registry = Some entry ->
  enforce_valid_values env = true ->
  convert_value' (S d) VR raw encoding
  = primary_conversion env VR entry raw (three_element_format encoding).
Proof.
  intros Hreg Hstrict.
  rewrite (convert_value_known obj env registry retry_order d VR entry raw
             encoding Hreg).
  destruct (primary_conversion env VR entry raw
              (three_element_format encoding)) as [l [v | e | ]];
    cbn [try_except]; try reflexivity.
  destruct (isinstance_ValueError e); [|reflexivity].
  rewrite Hstrict. cbn [raise]. now rewrite app_nil_r.
Qed.

(** X3: a text VR is converted with the second item of the encoding
    list, and with the one codec when the encoding is a single name:
    where the registry names [convert_string], the payload is decoded
    with that codec and handed to [MultiString].  With a list of fewer
    than two items the call raises [IndexError], lenient or strict,
    before any converter is called. *)
Theorem text_VR_encoding_slot (d : nat) (VR : string)
        (entry : registered) (raw : RawDataElement) :
  lookup VR registry = Some entry ->
  VR <> "PN" ->
  in_list VR (text_VRs env) = true ->
  (forall names,
      length names < 2 ->
      convert_value' (S d) VR raw (enc_list names)
      = ([], Raise IndexError))
  /\ (entry = function fn_convert_string ->
      forall first second rest s v,
        codec_decode env second (value raw) = Ok s ->
        MultiString env s valtype_str = Ok v ->
        convert_value' (S d) VR raw (enc_list (first :: second :: rest))
        = ([], Return v))
  /\ (entry = function fn_convert_string ->
      forall name s v,
        codec_decode env name (value raw) = Ok s ->
        MultiString env s valtype_str = Ok v ->
        convert_value' (S d) VR raw (enc_str name) = ([], Return v)).
Proof.
  intros Hreg HPN Htext. apply String.eqb_neq in HPN.
  split; [|split].
  - intros names Hlen.
    apply (convert_value_passes_primary obj env registry retry_order d VR
             entry raw (enc_list names)); [exact Hreg | |].
    + unfold primary_conversion.
      rewrite HPN, Htext. cbn [three_element_format].
      unfold encoding_item1.
      destruct names as [|a [|b names]]; cbn in Hlen |- *; try lia;
        destruct entry; reflexivity.
    + intros l e H. injection H as _ <-. reflexivity.
  - intros -> first second rest s v Hdec Hms.
    apply (convert_value_passes_primary obj env registry retry_order d VR
             (function fn_convert_string) raw
             (enc_list (first :: second :: rest)));
      [exact Hreg | | intros l e H; discriminate H].
    unfold primary_conversion. rewrite HPN, Htext.
    cbn [three_element_format encoding_item1 nth_error ret bind call].
    unfold convert_string, decode. rewrite Hdec. cbn [lift ret bind].
    rewrite Hms. reflexivity.
  - intros -> name s v Hdec Hms.
    apply (convert_value_passes_primary obj env registry retry_order d VR
             (function fn_convert_string) raw (enc_str name));
      [exact Hreg | | intros l e H; discriminate H].
    unfold primary_conversion. rewrite HPN, Htext.
    cbn [three_element_format encoding_item1 nth_error ret bind call].
    unfold convert_string, decode. rewrite Hdec. cbn [lift ret bind].
    rewrite Hms. reflexivity.
Qed.

(** X4: for the VR SQ the converter the registry names is not called:
    the payload goes to [read_sequence] with the element's implicit-VR
    flag and byte order, the payload length, the three-item encoding and
    the element's [value_tell], and what the parser returns is the
    value. *)
Theorem convert_value_SQ (d : nat) (entry : registered)
        (raw : RawDataElement) (encoding : encoding_value)
        (v : PyValue obj) :
  lookup "SQ" registry = Some entry ->
  in_list "SQ" (text_VRs env) = false ->
  read_sequence env (value raw) (is_implicit_VR raw)
                (endian_bool (is_little_endian raw)) (length (value raw))
                (enc_list (three_element_format encoding)) (value_tell raw)
  = Ok v ->
  convert_value' (S d) "SQ" raw encoding = ([], Return v).
Proof.
  intros Hreg Htext Hseq.
  apply (convert_value_passes_primary obj env registry retry_order d "SQ"
           entry raw encoding); [exact Hreg | |].
  - unfold primary_conversion. cbn [String.eqb Ascii.eqb Bool.eqb negb].
    rewrite Htext. unfold convert_SQ. rewrite Hseq.
    destruct entry; reflexivity.
  - intros l e H. discriminate H.
Qed.

End Dispatch.

Section ShippedDispatch.

Variable obj : Type.
Variable env : environment obj.

Local Abbreviation shipped :=
  (convert_value env converters convert_retry_VR_order).

(** X5: the binary VRs and the ambiguous aliases convert to the payload
    itself: the bytes are not interpreted, the byte order of the element
    plays no part, nothing is logged and nothing is raised. *)
Theorem convert_value_opaque (d : nat) (VR : string)
        (raw : RawDataElement) (encoding : encoding_value) :
  In VR opaque_VRs ->
  in_list VR (text_VRs env) = false ->
  shipped (S d) VR raw encoding = ([], Return (VBytes (value raw))).
Proof.
  intros HVR Htext. cbn in HVR.
  repeat (destruct HVR as [<- | HVR];
          [ eapply (convert_value_passes_primary obj env converters
                      convert_retry_VR_order d _ _ raw encoding);
            [ reflexivity
            | unfold primary_conversion;
              cbn [String.eqb Ascii.eqb Bool.eqb negb];
              rewrite Htext; reflexivity
            | intros l e H; discriminate H ]
          | ]).
  contradiction.
Qed.

(** X6: a numeric VR is converted by [convert_numbers] with the format
    the registry pairs it with and the byte order of the element; as
    [convert_numbers] raises no [ValueError], the result is final in
    lenient mode too. *)
Theorem convert_value_numeric (d : nat) (VR : string) (c : struct_code)
        (raw : RawDataElement) (encoding : encoding_value) :
  In (VR, c) numeric_formats ->
  in_list VR (text_VRs env) = false ->
  shipped (S d) VR raw encoding
  = convert_numbers (value raw) (is_little_endian raw) (Some c).
Proof.
  intros HVR Htext.
  assert (Hno : forall l e,
             @convert_numbers obj (value raw) (is_little_endian raw)
                              (Some c) = (l, Raise e) ->
             isinstance_ValueError e = false).
  { intros l e H.
    pose proof (outcome_in_convert_numbers obj
                  (fun e => isinstance_ValueError e = false)
                  eq_refl eq_refl (value raw) (is_little_endian raw)
                  (Some c)) as Hp.
    unfold outcome_in in Hp. now rewrite H in Hp. }
  cbn in HVR.
  repeat (destruct HVR as [E | HVR];
          [ injection E as <- <-;
            eapply (convert_value_passes_primary obj env converters
                      convert_retry_VR_order d _ _ raw encoding);
            [ reflexivity
            | unfold primary_conversion;
              cbn [String.eqb Ascii.eqb Bool.eqb negb];
              rewrite Htext; reflexivity
            | exact Hno ]
          | ]).
  contradiction.
Qed.

Hypothesis OB_not_text : in_list "OB" (text_VRs env) = false.

(** X7: with the registry and the retry order as shipped the recursion of
    the retry pass is bounded: every call ends within three nested calls,
    and more room changes nothing. *)
Theorem shipped_convert_value_bounded (d : nat) (VR : string)
        (raw : RawDataElement) (encoding : encoding_value) :
  value_of (shipped 3 VR raw encoding) <> Diverge
  /\ shipped (3 + d) VR raw encoding = shipped 3 VR raw encoding.
Proof.
  assert (H : value_of (shipped 3 VR raw encoding) <> Diverge)
    by exact (shipped_convert_value_ends obj env OB_not_text 0 VR raw
                                         encoding).
  split; [exact H|].
  apply convert_value_deeper; [lia | exact H].
Qed.

End ShippedDispatch.

(** One byte read as US, lenient. *)
Lemma convert_value_raises_only_primary_witness :
  value_of (primary_conversion (sample_env false) "US"
              (tuple fn_convert_numbers code_H) (sample_element [xff])
              (three_element_format (enc_str "iso8859")))
  = Raise struct_error
  /\ (enforce_valid_values (sample_env false) = false ->
      isinstance_ValueError struct_error = false).
Proof.
  apply (convert_value_raises_only_primary sample_obj (sample_env false)
           converters convert_retry_VR_order 2 "US"
           (tuple fn_convert_numbers code_H) (sample_element [xff])
           (enc_str "iso8859") struct_error); reflexivity.
Defined.

(** [b"\xff"] read as SH with the ascii codec, strict. *)
Lemma convert_value_strict_witness :
  convert_value (sample_env true) converters convert_retry_VR_order 3 "SH"
                (sample_element [xff]) (enc_str "ascii")
  = ([], Raise UnicodeDecodeError).
Proof.
  apply (convert_value_strict sample_obj (sample_env true) converters
           convert_retry_VR_order 2 "SH" (function fn_convert_string)
           (sample_element [xff]) (enc_str "ascii")); reflexivity.
Defined.

(** SH on [b"\xff"]: with the list ascii, iso8859, ascii the text is
    decoded with iso8859, the only one of the three that can; a list of
    one item raises [IndexError]. *)
Lemma text_VR_encoding_slot_witness :
  convert_value (sample_env false) converters convert_retry_VR_order 3 "SH"
                (sample_element [xff])
                (enc_list ["ascii"; "iso8859"; "ascii"])
  = ([], Return (VStr [255%N]))
  /\ convert_value (sample_env false) converters convert_retry_VR_order 3
                   "SH" (sample_element [xff]) (enc_list ["iso8859"])
     = ([], Raise IndexError).
Proof.
  destruct (text_VR_encoding_slot sample_obj (sample_env false)
              converters convert_retry_VR_order 2 "SH"
              (function fn_convert_string) (sample_element [xff]))
    as [Hshort [Hlist _]]; try reflexivity.
  - discriminate.
  - split.
    + apply (Hlist eq_refl "ascii" "iso8859" ["ascii"] [255%N]);
        reflexivity.
    + apply Hshort. cbn. lia.
Defined.

Lemma convert_value_SQ_witness :
  convert_value (sample_env false) converters convert_retry_VR_order 3 "SQ"
                (sample_element [x01; x02]) (enc_str "iso8859")
  = ([], Return (VObj (sequence [x01; x02] 0))).
Proof.
  apply (convert_value_SQ sample_obj (sample_env false) converters
           convert_retry_VR_order 2 (function fn_convert_SQ)
           (sample_element [x01; x02]) (enc_str "iso8859"));
    reflexivity.
Defined.

Lemma convert_value_opaque_witness :
  convert_value (sample_env false) converters convert_retry_VR_order 1
                "OB/OW" (sample_element [x01; x02; x03])
                (enc_str "iso8859")
  = ([], Return (VBytes [x01; x02; x03])).
Proof.
  apply (convert_value_opaque sample_obj (sample_env false) 0 "OB/OW"
           (sample_element [x01; x02; x03]) (enc_str "iso8859")).
  - cbn. tauto.
  - reflexivity.
Defined.

Lemma convert_value_numeric_witness :
  convert_value (sample_env false) converters convert_retry_VR_order 1
                "SS" (sample_element [xfe; xff]) (enc_str "iso8859")
  = convert_numbers [xfe; xff] true (Some code_h).
Proof.
  apply (convert_value_numeric sample_obj (sample_env false) 0 "SS" code_h
           (sample_element [xfe; xff]) (enc_str "iso8859")).
  - cbn. tauto.
  - reflexivity.
Defined.

Lemma shipped_convert_value_bounded_witness :
  value_of (convert_value (sample_env false) converters
              convert_retry_VR_order 3 "IS" (sample_element [xff])
              (enc_str "ascii")) <> Diverge
  /\ convert_value (sample_env false) converters convert_retry_VR_order
                   (3 + 4) "IS" (sample_element [xff]) (enc_str "ascii")
     = convert_value (sample_env false) converters convert_retry_VR_order
                     3 "IS" (sample_element [xff]) (enc_str "ascii").
Proof.
  apply (shipped_convert_value_bounded sample_obj (sample_env false)
           eq_refl 4 "IS" (sample_element [xff]) (enc_str "ascii")).
Defined.


(* ------------------------------------------------------------------ *)
(** ** Further properties of the numeric and tag converters *)

Lemma byte_val_inj (a b : byte) : byte_val a = byte_val b -> a = b.
Proof.
  unfold byte_val. intros H. apply N2Z.inj in H.
  assert (E : Byte.of_N (Byte.to_N a) = Byte.of_N (Byte.to_N b))
    by now rewrite H.
  rewrite !Byte.of_to_N in E. now injection E.
Qed.

Lemma le_uint_inj (a b : bytes) :
  length a = length b -> le_uint a = le_uint b -> a = b.
Proof.
  revert b; induction a as [|x a IH]; intros [|y b] Hlen H;
    cbn [length] in Hlen; try discriminate Hlen; [reflexivity|].
  cbn [le_uint] in H.
  pose proof (byte_val_range x). pose proof (byte_val_range y).
  assert (byte_val x = byte_val y /\ le_uint a = le_uint b) as [Hx Ha]
    by lia.
  f_equal; [now apply byte_val_inj | apply IH; [lia | exact Ha]].
Qed.

Lemma uint_of_inj (le : bool) (a b : bytes) :
  length a = length b -> uint_of le a = uint_of le b -> a = b.
Proof.
  destruct le; cbn [uint_of]; intros Hlen H.
  - now apply le_uint_inj.
  - apply le_uint_inj in H; [|now rewrite !length_rev].
    now rewrite <- (rev_involutive a), H, rev_involutive.
Qed.

Lemma to_signed_inj (bits u v : Z) :
  (0 < bits)%Z -> (0 <= u < 2 ^ bits)%Z -> (0 <= v < 2 ^ bits)%Z ->
  to_signed bits u = to_signed bits v -> u = v.
Proof.
  intros Hb Hu Hv. unfold to_signed.
  assert (E : (2 ^ bits = 2 * 2 ^ (bits - 1))%Z).
  { rewrite <- Z.pow_succ_r by lia. f_equal. lia. }
  destruct (Z.ltb_spec u (2 ^ (bits - 1)));
    destruct (Z.ltb_spec v (2 ^ (bits - 1))); lia.
Qed.

Lemma uint_of_window_range (le : bool) (c : struct_code) (w : bytes) :
  length w = calcsize c ->
  (0 <= uint_of le w < 2 ^ (8 * Z.of_nat (calcsize c)))%Z.
Proof.
  intros H. pose proof (uint_of_range le w) as R. rewrite H in R.
  replace (2 ^ (8 * Z.of_nat (calcsize c)))%Z
    with (256 ^ Z.of_nat (calcsize c))%Z; [exact R|].
  change 256%Z with (2 ^ 8)%Z. rewrite <- Z.pow_mul_r by lia. reflexivity.
Qed.

Lemma unpack_one_inj (le : bool) (c : struct_code) (a b : bytes) :
  integer_format c = true ->
  length a = calcsize c -> length b = calcsize c ->
  unpack_one le c a = unpack_one le c b -> a = b.
Proof.
  intros Hc Ha Hb H. apply (uint_of_inj le); [congruence|].
  pose proof (uint_of_window_range le c a Ha) as Ra.
  pose proof (uint_of_window_range le c b Hb) as Rb.
  destruct c; try discriminate Hc;
    cbn [unpack_one calcsize] in *; injection H as H;
    try exact H.
  - apply (to_signed_inj 16 _ _ ltac:(lia) Ra Rb H).
  - apply (to_signed_inj 32 _ _ ltac:(lia) Ra Rb H).
Qed.

Lemma unpack_one_in_range (le : bool) (c : struct_code) (w : bytes) :
  length w = calcsize c -> in_format_range c (unpack_one le c w).
Proof.
  intros H. pose proof (uint_of_window_range le c w H) as R.
  destruct c; cbn [unpack_one calcsize in_format_range] in *;
    try exact R.
  - apply (to_signed_range 16); [lia | exact R].
  - apply (to_signed_range 32); [lia | exact R].
  - exists (uint_of le w). split; [exact R | reflexivity].
  - exists (uint_of le w). split; [exact R | reflexivity].
Qed.

Lemma unpack_values_in_range le c n bs :
  length bs = n * calcsize c ->
  Forall (in_format_range c) (unpack_values le c n bs).
Proof.
  pose proof (calcsize_pos c) as Hc.
  revert bs; induction n as [|n IH]; intros bs H; cbn [unpack_values].
  - constructor.
  - constructor.
    + apply unpack_one_in_range. rewrite length_firstn. cbn in H. lia.
    + apply IH. rewrite length_skipn. cbn in H. lia.
Qed.

Lemma unpack_values_inj le c n a b :
  integer_format c = true ->
  length a = n * calcsize c -> length b = n * calcsize c ->
  unpack_values le c n a = unpack_values le c n b -> a = b.
Proof.
  intros Hint. pose proof (calcsize_pos c) as Hc.
  revert a b; induction n as [|n IH]; intros a b Ha Hb H.
  - cbn in Ha, Hb. apply length_zero_iff_nil in Ha, Hb. congruence.
  - cbn [unpack_values] in H. injection H as H1 H2.
    cbn in Ha, Hb.
    apply unpack_one_inj in H1;
      [| exact Hint | rewrite length_firstn; lia
       | rewrite length_firstn; lia].
    apply IH in H2;
      [| rewrite length_skipn; lia | rewrite length_skipn; lia].
    rewrite <- (firstn_skipn (calcsize c) a),
      <- (firstn_skipn (calcsize c) b).
    congruence.
Qed.

Lemma map_VNum_inj {obj} (a b : list number) :
  map (@VNum obj) a = map (@VNum obj) b -> a = b.
Proof.
  revert b; induction a as [|x a IH]; intros [|y b] H;
    cbn [map] in H; try discriminate H; [reflexivity|].
  injection H as -> H. f_equal. now apply IH.
Qed.

Lemma flat_map_numbers {obj} (vs : list number) :
  flat_map (fun x : PyValue obj => match x with VNum n => [n] | _ => [] end)
           (map VNum vs) = vs.
Proof.
  induction vs as [|v vs IH]; cbn [map flat_map app]; [reflexivity|].
  now rewrite IH.
Qed.

Section NumbersMore.

Variable obj : Type.

Lemma numbers_of_convert_numbers (bs : bytes) (le : bool)
      (c : struct_code) (n : nat) :
  length bs = n * calcsize c ->
  exists v : PyValue obj,
    convert_numbers bs le (Some c) = ([], Return v)
    /\ numbers_of v = unpack_values le c n bs.
Proof.
  intros H. rewrite (convert_numbers_whole obj bs le c n H).
  destruct (unpack_values le c n bs) as [|x [|y vs]] eqn:E.
  - eexists. split; reflexivity.
  - eexists. split; reflexivity.
  - eexists. split; [reflexivity|].
    unfold numbers_of. apply flat_map_numbers.
Qed.

(** X9: every number [convert_numbers] decodes lies in the range of its
    format: 16 or 32 bits, unsigned or two's complement; a float is a bit
    pattern of its width.  There are as many numbers as the payload has
    values. *)
Theorem convert_numbers_in_range (bs : bytes) (le : bool)
        (c : struct_code) (N : nat) :
  length bs = N * calcsize c ->
  exists v : PyValue obj,
    convert_numbers bs le (Some c) = ([], Return v)
    /\ length (numbers_of v) = N
    /\ Forall (in_format_range c) (numbers_of v).
Proof.
  intros H.
  destruct (numbers_of_convert_numbers bs le c N H) as [v [Hv Hn]].
  exists v. rewrite Hn. repeat split.
  - exact Hv.
  - apply unpack_values_length.
  - now apply unpack_values_in_range.
Qed.

(** X10: for the integer formats [convert_numbers] loses nothing on
    payloads that hold whole values: two different payloads convert, under
    one format and byte order, to different results. *)
Theorem convert_numbers_injective (bs1 bs2 : bytes) (le : bool)
        (c : struct_code) :
  integer_format c = true ->
  length bs1 mod calcsize c = 0 ->
  length bs2 mod calcsize c = 0 ->
  bs1 <> bs2 ->
  @convert_numbers obj bs1 le (Some c) <> convert_numbers bs2 le (Some c).
Proof.
  intros Hint H1 H2 Hne H. apply Hne. pose proof (calcsize_pos c) as Hc.
  assert (E1 : length bs1 = (length bs1 / calcsize c) * calcsize c).
  { pose proof (Nat.div_mod_eq (length bs1) (calcsize c)). lia. }
  assert (E2 : length bs2 = (length bs2 / calcsize c) * calcsize c).
  { pose proof (Nat.div_mod_eq (length bs2) (calcsize c)). lia. }
  destruct (numbers_of_convert_numbers bs1 le c _ E1) as [v1 [Hv1 Hn1]].
  destruct (numbers_of_convert_numbers bs2 le c _ E2) as [v2 [Hv2 Hn2]].
  rewrite Hv1, Hv2 in H. injection H as ->.
  rewrite Hn1 in Hn2.
  assert (Hcount : length bs1 / calcsize c = length bs2 / calcsize c).
  { rewrite <- (unpack_values_length le c (length bs1 / calcsize c) bs1),
      Hn2. apply unpack_values_length. }
  rewrite Hcount in Hn2, E1.
  now apply (unpack_values_inj le c (length bs2 / calcsize c)).
Qed.

(** *** Tags *)

Lemma bind_Return {A B} (m : M A) (k : A -> M B) l b :
  bind m k = (l, Return b) ->
  exists l1 a l2, m = (l1, Return a) /\ k a = (l2, Return b).
Proof.
  destruct m as [l1 [a | e | ]]; cbn [bind]; try discriminate.
  destruct (k a) as [l2 o] eqn:E. intros H. injection H as _ ->.
  now exists l1, a, l2.
Qed.

Lemma mapM_Return {A B} (f : A -> M B) (Q : B -> Prop) (xs : list A) :
  (forall x l y, f x = (l, Return y) -> Q y) ->
  forall l ys, mapM f xs = (l, Return ys) -> Forall Q ys.
Proof.
  intros Hf. induction xs as [|x xs IH]; intros l ys H; cbn [mapM] in H.
  - injection H as _ <-. constructor.
  - apply bind_Return in H. destruct H as [l1 [y [l2 [Hy H]]]].
    apply bind_Return in H. destruct H as [l3 [ys' [l4 [Hys H]]]].
    injection H as _ <-. constructor; [eapply Hf | eapply IH]; eassumption.
Qed.

Lemma convert_tag_16bit bs le off l t :
  convert_tag bs le off = (l, Return t) -> is_16bit t.
Proof.
  unfold convert_tag, unpack_HH.
  set (w := firstn 4 (skipn off bs)).
  destruct (Nat.eqb_spec (length w) 4) as [E|_]; [|discriminate].
  cbn [ret bind app]. intros H. injection H as _ <-.
  unfold is_16bit, TupleTag. cbn [group element fst snd].
  pose proof (uint_of_range le (firstn 2 w)) as R1.
  pose proof (uint_of_range le (firstn 2 (skipn 2 w))) as R2.
  rewrite length_firstn in R1, R2. rewrite length_skipn in R2.
  rewrite E in R1, R2.
  change (256 ^ Z.of_nat (Nat.min 2 4))%Z with 65536%Z in R1.
  change (256 ^ Z.of_nat (Nat.min 2 (4 - 2)))%Z with 65536%Z in R2.
  change (2 ^ 16)%Z with 65536%Z. split; [exact R1 | exact R2].
Qed.

Lemma flat_map_tags (ts : list BaseTag) :
  flat_map (fun x : PyValue obj => match x with VTag t => [t] | _ => [] end)
           (map (fun t => VTag (Tag t)) ts) = ts.
Proof.
  induction ts as [|t ts IH]; cbn [map flat_map app]; [reflexivity|].
  now rewrite IH.
Qed.

(** X11: whenever [convert_ATvalue] returns, what it returns is made of
    tags, and both fields of every tag are 16-bit values. *)
Theorem convert_ATvalue_16bit (bs : bytes) (le : bool)
        (l : list log_record) (v : PyValue obj) :
  convert_ATvalue bs le = (l, Return v) ->
  ((exists t, v = VTag t) \/ (exists ts, v = VMultiValue (map VTag ts)))
  /\ Forall is_16bit (tags_of v).
Proof.
  unfold convert_ATvalue.
  destruct (Nat.eqb (length bs) 4).
  - intros H. apply bind_Return in H. destruct H as [l1 [t [l2 [Ht H]]]].
    injection H as _ <-. split; [left; now exists t|].
    cbn [tags_of]. constructor; [|constructor].
    eapply convert_tag_16bit. exact Ht.
  - intros H. apply bind_Return in H. destruct H as [l1 [u [l2 [_ H]]]].
    apply bind_Return in H. destruct H as [l3 [ts [l4 [Hts H]]]].
    unfold MultiValue in H. rewrite (mapM_ret (fun t => VTag (Tag t))) in H.
    cbn [bind ret app] in H. injection H as _ <-.
    split; [right; now exists ts|].
    cbn [tags_of]. rewrite flat_map_tags.
    eapply mapM_Return; [|exact Hts].
    intros x lx y Hy. eapply convert_tag_16bit. exact Hy.
Qed.

End NumbersMore.

Lemma convert_numbers_in_range_witness :
  exists v : PyValue unit,
    convert_numbers [xfe; xff; x01; x00] true (Some code_h)
    = ([], Return v)
    /\ length (numbers_of v) = 2
    /\ Forall (in_format_range code_h) (numbers_of v).
Proof.
  apply (convert_numbers_in_range unit [xfe; xff; x01; x00] true code_h 2).
  reflexivity.
Defined.

(** [01 00] and [00 01] as one big-endian H: 256 and 1. *)
Lemma convert_numbers_injective_witness :
  @convert_numbers unit [x01; x00] false (Some code_H)
  <> convert_numbers [x00; x01] false (Some code_H).
Proof.
  apply (convert_numbers_injective unit [x01; x00] [x00; x01] false
           code_H); try reflexivity.
  discriminate.
Defined.

Lemma convert_ATvalue_16bit_witness :
  ((exists t, VMultiValue [VTag (mkTag 16 32); VTag (mkTag 8 24)]
              = @VTag unit t)
   \/ (exists ts, VMultiValue [VTag (mkTag 16 32); VTag (mkTag 8 24)]
                  = @VMultiValue unit (map VTag ts)))
  /\ Forall is_16bit
       (tags_of (@VMultiValue unit
                   [VTag (mkTag 16 32); VTag (mkTag 8 24)])).
Proof.
  apply (convert_ATvalue_16bit unit
           [x10; x00; x20; x00; x08; x00; x18; x00] true []).
  reflexivity.
Defined.

(* ------------------------------------------------------------------ *)
(** ** Further properties of the text converters *)

Lemma str_endswith_last (p : pystr) (c c' : N) :
  str_endswith (p ++ [c]) c' = N.eqb c c'.
Proof. unfold str_endswith. now rewrite rev_unit. Qed.

Lemma str_endswith_spec (s : pystr) (c : N) :
  str_endswith s c = true <-> exists p, s = p ++ [c].
Proof.
  unfold str_endswith. destruct (rev s) as [|x r] eqn:E.
  - split; [discriminate|]. intros [p ->].
    rewrite rev_unit in E. discriminate E.
  - assert (Hs : s = rev r ++ [x]).
    { rewrite <- (rev_involutive s), E. reflexivity. }
    split.
    + intros H. apply N.eqb_eq in H. subst x. now exists (rev r).
    + intros [p Hp]. rewrite Hp in Hs.
      apply app_inj_tail in Hs. destruct Hs as [_ ->].
      apply N.eqb_refl.
Qed.

(** What is left after one trailing [c], if there is one, is taken off. *)
Lemma drop_one_trailing (s payload : pystr) (c : N) :
  (s = payload ++ [c] \/ (payload = s /\ forall p, s <> p ++ [c])) ->
  (if negb (Nat.eqb (length s) 0) && str_endswith s c
   then drop_last s else s) = payload.
Proof.
  intros [-> | [-> H]].
  - rewrite str_endswith_last, N.eqb_refl, length_app. cbn [length].
    replace (length payload + 1) with (S (length payload)) by lia.
    cbn. apply removelast_last.
  - destruct (str_endswith s c) eqn:E.
    + apply str_endswith_spec in E. destruct E as [p Hp].
      now destruct (H p).
    + now rewrite andb_false_r.
Qed.

Lemma lstrip_spec (s : pystr) :
  exists pre,
    s = pre ++ lstrip s /\ forallb isspace pre = true
    /\ forall c t, lstrip s = c :: t -> isspace c = false.
Proof.
  induction s as [|c s [pre [Hs [Hpre Hhead]]]]; cbn [lstrip].
  - exists []. repeat split. intros c t H. discriminate H.
  - destruct (isspace c) eqn:Ec.
    + exists (c :: pre). cbn [app forallb]. rewrite Ec, Hpre.
      repeat split; [now f_equal | exact Hhead].
    + exists []. repeat split. intros c' t H. now injection H as <- _.
Qed.

Lemma lstrip_padding (pad s : pystr) :
  forallb isspace pad = true -> lstrip (pad ++ s) = lstrip s.
Proof.
  induction pad as [|c pad IH]; cbn [forallb app lstrip]; [reflexivity|].
  intros H. apply andb_prop in H. destruct H as [-> H]. now apply IH.
Qed.

Lemma forallb_rev {A} (f : A -> bool) (l : list A) :
  forallb f (rev l) = forallb f l.
Proof.
  induction l as [|x l IH]; cbn [rev forallb]; [reflexivity|].
  rewrite forallb_app, IH. cbn [forallb]. rewrite andb_true_r.
  apply andb_comm.
Qed.

Lemma rstrip_spec (s : pystr) :
  exists post,
    s = rstrip s ++ post /\ forallb isspace post = true
    /\ forall t c, rstrip s = t ++ [c] -> isspace c = false.
Proof.
  unfold rstrip.
  destruct (lstrip_spec (rev s)) as [pre [Hs [Hpre Hhead]]].
  exists (rev pre). repeat split.
  - rewrite <- rev_app_distr, <- Hs. symmetry. apply rev_involutive.
  - now rewrite forallb_rev.
  - intros t c H. apply (Hhead c (rev t)).
    rewrite <- (rev_involutive (lstrip (rev s))), H, rev_unit.
    reflexivity.
Qed.

(** Trailing white space does not count for [rstrip]. *)
Lemma rstrip_padding (s pad : pystr) :
  forallb isspace pad = true -> rstrip (s ++ pad) = rstrip s.
Proof.
  intros H. unfold rstrip. rewrite rev_app_distr, lstrip_padding;
    [reflexivity | now rewrite forallb_rev].
Qed.

Lemma split_on_nonempty {A} (p : A -> bool) (s : list A) :
  split_on p s <> [].
Proof.
  destruct s as [|c s]; cbn [split_on]; [discriminate|].
  destruct (p c); [discriminate|].
  destruct (split_on p s); discriminate.
Qed.

Lemma split_on_length {A} (p : A -> bool) (s : list A) :
  length (split_on p s) = S (length (filter p s)).
Proof.
  induction s as [|c s IH]; cbn [split_on filter]; [reflexivity|].
  destruct (p c); cbn [length].
  - now rewrite IH.
  - destruct (split_on p s); cbn [length] in *; [discriminate IH|exact IH].
Qed.

Lemma join_split_on {A} (p : A -> bool) (sep : A) (s : list A) :
  (forall c, p c = true -> c = sep) ->
  join sep (split_on p s) = s.
Proof.
  intros Hp. induction s as [|c s IH]; cbn [split_on]; [reflexivity|].
  pose proof (split_on_nonempty p s) as Hne.
  destruct (p c) eqn:Ec.
  - rewrite (Hp c Ec).
    destruct (split_on p s) as [|q qs]; [contradiction|].
    cbn [join app]. cbn [join] in IH. now rewrite IH.
  - destruct (split_on p s) as [|q qs]; [contradiction|].
    destruct qs as [|q' qs]; cbn [join app] in IH |- *; now rewrite <- IH.
Qed.

(** No part of a split holds the separator. *)
Lemma split_on_parts {A} (p : A -> bool) (s : list A) :
  Forall (fun part => forallb (fun c => negb (p c)) part = true)
         (split_on p s).
Proof.
  induction s as [|c s IH]; cbn [split_on].
  - repeat constructor.
  - destruct (p c) eqn:Ec.
    + constructor; [reflexivity | exact IH].
    + destruct (split_on p s) as [|q qs]; [repeat constructor; cbn;
                                            now rewrite Ec|].
      inversion IH as [|? ? Hq Hqs]; subst.
      constructor; [|exact Hqs]. cbn [forallb]. now rewrite Ec, Hq.
Qed.

Section TextMore.

Variable obj : Type.
Variable env : environment obj.

Lemma convert_PN_split (bs payload : bytes) (le : bool)
      (encoding : option encoding_value) :
  (bs = payload ++ [space_byte] \/ bs = payload ++ [nul_byte]
   \/ (payload = bs
       /\ forall p, bs <> p ++ [space_byte] /\ bs <> p ++ [nul_byte])) ->
  convert_PN env bs le encoding
  = match bytes_split_backslash payload with
    | [x] => lift (PersonName env x (encodings_used encoding))
    | parts =>
        MultiValue
          (fun x => lift (PersonName env x (encodings_used encoding)))
          parts
    end.
Proof.
  intros Hpad. apply convert_PN_stripped in Hpad.
  unfold convert_PN, encodings_used. rewrite Hpad.
  destruct (truthy encoding);
    destruct (bytes_split_backslash payload) as [|? [|? ?]];
    reflexivity.
Qed.

(** X12: [convert_PN] on a payload whose components all build: the names
    are as many as the backslashes of the payload, less its one pad byte,
    plus one; the components hold no backslash and, joined by
    backslashes, give that payload back; one name comes as a scalar,
    several as a multi-value in order. *)
Theorem convert_PN_components (bs payload : bytes) (le : bool)
        (encoding : option encoding_value) (vs : list (PyValue obj)) :
  (bs = payload ++ [space_byte] \/ bs = payload ++ [nul_byte]
   \/ (payload = bs
       /\ forall p, bs <> p ++ [space_byte] /\ bs <> p ++ [nul_byte])) ->
  Forall2 (fun x v => PersonName env x (encodings_used encoding) = Ok v)
          (bytes_split_backslash payload) vs ->
  convert_PN env bs le encoding = ([], Return (scalar_or_multi vs))
  /\ length vs = S (length (filter (is_byte backslash_byte) payload))
  /\ join backslash_byte (bytes_split_backslash payload) = payload
  /\ Forall (fun part =>
               forallb (fun c => negb (is_byte backslash_byte c)) part
               = true)
            (bytes_split_backslash payload).
Proof.
  intros Hpad Hvs. split; [|split; [|split]].
  - rewrite (convert_PN_split bs payload le encoding Hpad).
    destruct Hvs as [|x v xs vs Hx Hrest].
    + now apply MultiValue_all_built.
    + destruct Hrest as [|x' v' xs' vs' Hx' Hrest].
      * rewrite Hx. reflexivity.
      * apply MultiValue_all_built.
        constructor; [exact Hx|]. constructor; assumption.
  - rewrite <- (Forall2_length Hvs). apply split_on_length.
  - apply join_split_on. intros c Hc. now apply byte_dec_bl in Hc.
  - apply split_on_parts.
Qed.

(** X13: [convert_single_string] takes at most one trailing space off
    the decoded text and returns the rest as one string: a backslash is
    data, not a separator, and nothing else is trimmed. *)
Theorem convert_single_string_one_space (bs : bytes) (le : bool)
        (name : string) (s payload : pystr) :
  codec_decode env name bs = Ok s ->
  (s = payload ++ [space]
   \/ (payload = s /\ forall p, s <> p ++ [space])) ->
  convert_single_string env bs le (enc_str name)
  = ([], Return (VStr payload)).
Proof.
  intros Hdec Hpad. apply drop_one_trailing in Hpad.
  unfold convert_single_string, decode. rewrite Hdec.
  cbn [lift ret bind app]. now rewrite Hpad.
Qed.

(** X14: [convert_UI] takes at most one trailing NUL off the decoded text
    and hands the rest to [MultiString] with the UID type; what that
    returns or raises is the result. *)
Theorem convert_UI_one_NUL (bs : bytes) (le : bool) (s payload : pystr) :
  codec_decode env (default_encoding env) bs = Ok s ->
  (s = payload ++ [nul] \/ (payload = s /\ forall p, s <> p ++ [nul])) ->
  convert_UI env bs le = lift (MultiString env payload valtype_UID).
Proof.
  intros Hdec Hpad. apply drop_one_trailing in Hpad.
  unfold convert_UI, decode. rewrite Hdec.
  cbn [lift ret bind app]. rewrite Hpad.
  now destruct (lift (MultiString env payload valtype_UID)) as [l o].
Qed.

(** X15: [convert_AE_string] returns the decoded text without its
    leading and trailing white space, and only that: the result neither
    starts nor ends with white space, and the text is the result between
    two runs of white space. *)
Theorem convert_AE_string_stripped (bs : bytes) (le : bool)
        (name : string) (s : pystr) :
  codec_decode env name bs = Ok s ->
  exists pre t post,
    convert_AE_string env bs le (enc_str name) = ([], Return (VStr t))
    /\ s = pre ++ t ++ post
    /\ forallb isspace pre = true /\ forallb isspace post = true
    /\ (forall c t', t = c :: t' -> isspace c = false)
    /\ (forall t' c, t = t' ++ [c] -> isspace c = false).
Proof.
  intros Hdec.
  destruct (lstrip_spec s) as [pre [Hs [Hpre Hhead]]].
  destruct (rstrip_spec (lstrip s)) as [post [Hu [Hpost Hlast]]].
  exists pre, (strip s), post. unfold strip. repeat split.
  - unfold convert_AE_string, decode. rewrite Hdec. reflexivity.
  - rewrite <- Hu. exact Hs.
  - exact Hpre.
  - exact Hpost.
  - intros c t' Ht. rewrite Ht in Hu. apply (Hhead c (t' ++ post)).
    exact Hu.
  - exact Hlast.
Qed.

(** X16: [convert_UR_string] returns the decoded text without its
    trailing white space: leading white space stays, and the value is one
    string whatever backslashes it holds. *)
Theorem convert_UR_string_right_stripped (bs : bytes) (le : bool)
        (name : string) (s : pystr) :
  codec_decode env name bs = Ok s ->
  exists t post,
    convert_UR_string env bs le (enc_str name) = ([], Return (VStr t))
    /\ s = t ++ post
    /\ forallb isspace post = true
    /\ (forall t' c, t = t' ++ [c] -> isspace c = false).
Proof.
  intros Hdec.
  destruct (rstrip_spec s) as [post [Hs [Hpost Hlast]]].
  exists (rstrip s), post. repeat split.
  - unfold convert_UR_string, decode. rewrite Hdec. reflexivity.
  - exact Hs.
  - exact Hpost.
  - exact Hlast.
Qed.

(** X17: white space after a date, date-time or time component does not
    count: the value built and the length warning, if any, are those of
    the component without it. *)
Theorem date_time_padding_ignored (s pad : pystr) :
  forallb isspace pad = true ->
  _DA_from_byte_string obj env (s ++ pad) = _DA_from_byte_string obj env s
  /\ _DT_from_byte_string env (s ++ pad) = _DT_from_byte_string env s
  /\ _TM_from_byte_string env (s ++ pad) = _TM_from_byte_string env s.
Proof.
  intros H.
  unfold _DA_from_byte_string, _DT_from_byte_string, _TM_from_byte_string.
  now rewrite (rstrip_padding s pad H).
Qed.

(** X18: given a list of encodings, the numpy path decodes with its
    first item; with an empty list it raises [IndexError], and so does
    [convert_value_num_str]. *)
Theorem decode_num_str_encoding_list (raw : RawDataElement) :
  (forall name rest,
      decode_num_str env raw (enc_list (name :: rest))
      = lift (codec_decode env name (value raw)))
  /\ decode_num_str env raw (enc_list []) = ([], Raise IndexError)
  /\ forall VR,
      convert_value_num_str env VR raw (enc_list [])
      = ([], Raise IndexError).
Proof.
  repeat split.
  intros name rest. unfold decode_num_str.
  cbn [decode raise try_except isinstance_TypeError encoding_item0 ret
         bind app].
  now destruct (lift (codec_decode env name (value raw))) as [l o].
Qed.

End TextMore.

Lemma convert_PN_components_witness :
  convert_PN (sample_env false) ["A"; "\"; "B"; "\"; "C"; " "]%byte true
             None
  = ([], Return (scalar_or_multi
                   [VObj (person_name ["A"]%byte None);
                    VObj (person_name ["B"]%byte None);
                    VObj (person_name ["C"]%byte None)]))
  /\ length [VObj (person_name ["A"]%byte None);
             VObj (person_name ["B"]%byte None);
             VObj (person_name ["C"]%byte None)]
     = S (length (filter (is_byte backslash_byte)
                         ["A"; "\"; "B"; "\"; "C"]%byte))
  /\ join backslash_byte
          (bytes_split_backslash ["A"; "\"; "B"; "\"; "C"]%byte)
     = ["A"; "\"; "B"; "\"; "C"]%byte
  /\ Forall (fun part =>
               forallb (fun c => negb (is_byte backslash_byte c)) part
               = true)
            (bytes_split_backslash ["A"; "\"; "B"; "\"; "C"]%byte).
Proof.
  apply (convert_PN_components sample_obj (sample_env false)
           ["A"; "\"; "B"; "\"; "C"; " "]%byte
           ["A"; "\"; "B"; "\"; "C"]%byte true None).
  - left. reflexivity.
  - repeat constructor.
Defined.

(** ["a\b  "] as LT: one of the two spaces goes, the backslash stays. *)
Lemma convert_single_string_one_space_witness :
  convert_single_string (sample_env false) ["a"; "\"; "b"; " "; " "]%byte
                        true (enc_str "iso8859")
  = ([], Return (VStr (str_of "a\b "))).
Proof.
  apply (convert_single_string_one_space sample_obj (sample_env false)
           ["a"; "\"; "b"; " "; " "]%byte true "iso8859"
           (str_of "a\b  ") (str_of "a\b ")).
  - reflexivity.
  - left. reflexivity.
Defined.

Lemma convert_UI_one_NUL_witness :
  convert_UI (sample_env false) ["1"; "."; "2"; "000"]%byte true
  = lift (MultiString (sample_env false) (str_of "1.2") valtype_UID).
Proof.
  apply (convert_UI_one_NUL sample_obj (sample_env false)
           ["1"; "."; "2"; "000"]%byte true (str_of "1.2" ++ [nul])
           (str_of "1.2")).
  - reflexivity.
  - left. reflexivity.
Defined.

Lemma convert_AE_string_stripped_witness :
  exists pre t post,
    convert_AE_string (sample_env false) [" "; "A"; "E"; " "]%byte true
                      (enc_str "iso8859")
    = ([], Return (VStr t))
    /\ str_of " AE " = pre ++ t ++ post
    /\ forallb isspace pre = true /\ forallb isspace post = true
    /\ (forall c t', t = c :: t' -> isspace c = false)
    /\ (forall t' c, t = t' ++ [c] -> isspace c = false).
Proof.
  apply (convert_AE_string_stripped sample_obj (sample_env false)
           [" "; "A"; "E"; " "]%byte true "iso8859" (str_of " AE ")).
  reflexivity.
Defined.

Lemma convert_UR_string_right_stripped_witness :
  exists t post,
    convert_UR_string (sample_env false) [" "; "u"; " "]%byte true
                      (enc_str "iso8859")
    = ([], Return (VStr t))
    /\ str_of " u " = t ++ post
    /\ forallb isspace post = true
    /\ (forall t' c, t = t' ++ [c] -> isspace c = false).
Proof.
  apply (convert_UR_string_right_stripped sample_obj (sample_env false)
           [" "; "u"; " "]%byte true "iso8859" (str_of " u ")).
  reflexivity.
Defined.

Lemma date_time_padding_ignored_witness :
  _DA_from_byte_string sample_obj (sample_env false)
                       (str_of "20200101" ++ str_of "  ")
  = _DA_from_byte_string sample_obj (sample_env false) (str_of "20200101")
  /\ _DT_from_byte_string (sample_env false)
                          (str_of "20200101" ++ str_of "  ")
     = _DT_from_byte_string (sample_env false) (str_of "20200101")
  /\ _TM_from_byte_string (sample_env false)
                          (str_of "20200101" ++ str_of "  ")
     = _TM_from_byte_string (sample_env false) (str_of "20200101").
Proof.
  apply (date_time_padding_ignored sample_obj (sample_env false)
           (str_of "20200101") (str_of "  ")).
  reflexivity.
Defined.

(* ------------------------------------------------------------------ *)
(** ** A length mismatch through [convert_value] *)

Lemma shipped_numeric_primary (obj : Type) (env : environment obj)
      (VR : string) (c : struct_code) (raw : RawDataElement)
      (names : list string) :
  In (VR, c) numeric_formats ->
  in_list VR (text_VRs env) = false ->
  lookup VR converters = Some (tuple fn_convert_numbers c)
  /\ primary_conversion env VR (tuple fn_convert_numbers c) raw names
     = convert_numbers (value raw) (is_little_endian raw) (Some c).
Proof.
  intros HVR Htext. cbn in HVR.
  repeat (destruct HVR as [E | HVR];
          [ injection E as <- <-; split; [reflexivity|];
            unfold primary_conversion;
            cbn [String.eqb Ascii.eqb Bool.eqb negb];
            rewrite Htext; reflexivity
          | ]).
  contradiction.
Qed.

(** C4, as the code has it: a payload whose length is not a multiple of
    the value width gets the warning, and then [unpack] refuses the
    buffer: [convert_numbers] raises [struct.error], returns nothing and
    truncates nothing.  When the numeric VR is the one [convert_value] is
    called with, that error and the warning are the whole result of the
    call, strict or lenient: the mismatch leaves the module as an
    exception. *)
Theorem convert_numbers_length_mismatch (obj : Type) (bs : bytes)
        (le : bool) (c : struct_code) :
  length bs mod calcsize c <> 0 ->
  @convert_numbers obj bs le (Some c)
  = ([warning_number_size], Raise struct_error)
  /\ forall (env : environment obj) (VR : string) (raw : RawDataElement)
            (encoding : encoding_value) (d : nat),
      In (VR, c) numeric_formats ->
      in_list VR (text_VRs env) = false ->
      value raw = bs ->
      convert_value env converters convert_retry_VR_order (S d) VR raw
                    encoding
      = ([warning_number_size], Raise struct_error).
Proof.
  intros H. split; [now apply convert_numbers_ragged|].
  intros env VR raw encoding d HVR Htext Hraw.
  destruct (shipped_numeric_primary obj env VR c raw
              (three_element_format encoding) HVR Htext) as [Hreg Hprim].
  apply (convert_value_passes_primary obj env converters
           convert_retry_VR_order d VR _ raw encoding _ Hreg).
  - rewrite Hprim, Hraw. now apply convert_numbers_ragged.
  - intros l e E. injection E as _ <-. reflexivity.
Qed.

(** Three bytes as US, lenient. *)
Lemma convert_numbers_length_mismatch_witness :
  @convert_numbers sample_obj [x01; x02; x03] true (Some code_H)
  = ([warning_number_size], Raise struct_error)
  /\ convert_value (sample_env false) converters convert_retry_VR_order 3
                   "US" (sample_element [x01; x02; x03])
                   (enc_str "iso8859")
     = ([warning_number_size], Raise struct_error).
Proof.
  destruct (convert_numbers_length_mismatch sample_obj [x01; x02; x03]
              true code_H) as [H1 H2].
  - cbn. lia.
  - split; [exact H1|].
    apply (H2 (sample_env false) "US" (sample_element [x01; x02; x03])
              (enc_str "iso8859") 2).
    + cbn. tauto.
    + reflexivity.
    + reflexivity.
Defined.

(* ------------------------------------------------------------------ *)
(** ** Person names: padding and components *)

Lemma split_on_free {A} (p : A -> bool) (x : list A) :
  forallb (fun c => negb (p c)) x = true -> split_on p x = [x].
Proof.
  induction x as [|c x IH]; cbn [forallb split_on]; [reflexivity|].
  intros H. apply andb_prop in H. destruct H as [Hc Hx].
  apply negb_true_iff in Hc. rewrite Hc, (IH Hx). reflexivity.
Qed.

Lemma split_on_app_sep {A} (p : A -> bool) (x : list A) (sep : A)
      (s : list A) :
  forallb (fun c => negb (p c)) x = true -> p sep = true ->
  split_on p (x ++ sep :: s) = x :: split_on p s.
Proof.
  intros Hx Hsep. induction x as [|c x IH]; cbn [app split_on].
  - now rewrite Hsep.
  - cbn [forallb] in Hx. apply andb_prop in Hx. destruct Hx as [Hc Hx].
    apply negb_true_iff in Hc. rewrite Hc, (IH Hx). reflexivity.
Qed.

(** Separator-free parts are what splitting their join gives back. *)
Lemma split_on_join {A} (p : A -> bool) (sep : A) (parts : list (list A)) :
  parts <> [] -> p sep = true ->
  Forall (fun part => forallb (fun c => negb (p c)) part = true) parts ->
  split_on p (join sep parts) = parts.
Proof.
  intros Hne Hsep Hfree. induction Hfree as [|x r Hx Hr IH];
    [contradiction|].
  destruct r as [|y r].
  - cbn [join]. now apply split_on_free.
  - change (join sep (x :: y :: r)) with (x ++ sep :: join sep (y :: r)).
    rewrite split_on_app_sep by assumption.
    rewrite IH by discriminate. reflexivity.
Qed.

(** C7: when the payload is not empty and its last byte is a space or a
    NUL, exactly that one byte is removed; otherwise nothing is removed.
    What is left is cut at its backslashes: whichever backslash-free
    parts it is the backslash-join of, one part gives the scalar name of
    that part, and any other number of parts gives a multi-value of the
    names of the parts, in order. *)
Theorem convert_PN_padding (obj : Type) (env : environment obj)
        (bs payload : bytes) (parts : list bytes) (le : bool)
        (encoding : option encoding_value) :
  (bs = payload ++ [space_byte] \/ bs = payload ++ [nul_byte]
   \/ (payload = bs
       /\ forall p, bs <> p ++ [space_byte] /\ bs <> p ++ [nul_byte])) ->
  parts <> [] ->
  join backslash_byte parts = payload ->
  Forall (fun part =>
            forallb (fun c => negb (is_byte backslash_byte c)) part = true)
         parts ->
  (forall x, parts = [x] ->
     convert_PN env bs le encoding
     = lift (PersonName env x (encodings_used encoding)))
  /\ (length parts <> 1 ->
      forall vs,
        Forall2 (fun x v =>
                   PersonName env x (encodings_used encoding) = Ok v)
                parts vs ->
        convert_PN env bs le encoding = ([], Return (VMultiValue vs))).
Proof.
  intros Hpad Hne Hjoin Hfree.
  assert (Hsplit : bytes_split_backslash payload = parts).
  { rewrite <- Hjoin. unfold bytes_split_backslash.
    apply split_on_join; [exact Hne | reflexivity | exact Hfree]. }
  rewrite (convert_PN_split obj env bs payload le encoding Hpad), Hsplit.
  split.
  - intros x ->. reflexivity.
  - intros Hlen vs Hvs.
    destruct parts as [|x [|y r]].
    + now apply MultiValue_all_built.
    + cbn in Hlen. congruence.
    + now apply MultiValue_all_built.
Qed.

(** ["A  "]: of the two trailing spaces only the last is removed, and the
    one component is a scalar.  ["A\B  "]: two names, the second with the
    space that is left. *)
Lemma convert_PN_padding_witness :
  convert_PN (sample_env false) ["A"; " "; " "]%byte true None
  = ([], Return (VObj (person_name ["A"; " "]%byte None)))
  /\ convert_PN (sample_env false) ["A"; "\"; "B"; " "; " "]%byte true
                None
     = ([], Return (VMultiValue
                      [VObj (person_name ["A"]%byte None);
                       VObj (person_name ["B"; " "]%byte None)])).
Proof.
  split.
  - apply (convert_PN_padding sample_obj (sample_env false)
             ["A"; " "; " "]%byte ["A"; " "]%byte [["A"; " "]%byte] true
             None).
    + left. reflexivity.
    + discriminate.
    + reflexivity.
    + repeat constructor.
    + reflexivity.
  - apply (convert_PN_padding sample_obj (sample_env false)
             ["A"; "\"; "B"; " "; " "]%byte ["A"; "\"; "B"; " "]%byte
             [["A"]%byte; ["B"; " "]%byte] true None).
    + left. reflexivity.
    + discriminate.
    + reflexivity.
    + repeat constructor.
    + cbn. discriminate.
    + repeat constructor.
Defined.
